(** * diagnostic_updater/_publisher.py: the TopicDiagnostic family

    A shallow embedding of [HeaderlessTopicDiagnostic], [TopicDiagnostic]
    and [DiagnosedPublisher].  Python objects live in a store addressed by
    locations, so that the monitor reached through [self.freq] is the very
    object listed in [self.tasks], and the task handed to the updater is
    the object later mutated by [addTask].  Methods are computations in a
    state monad with exceptions; as in Python, the effects performed before
    an exception is raised stay in the store.  A ghost trace records every
    call that leaves the family: into a monitor, into the updater, into the
    publisher. *)

From Stdlib Require Import ZArith String List Bool Lia.
From Stdlib Require Import PrimFloat FloatOps SpecFloat.
From stdpp Require Import base option list strings.

Set Warnings "-register-all,-inexact-float".

Local Open Scope string_scope.
Local Open Scope list_scope.

(** ** Values and exceptions *)

(** The exceptions the embedded code can meet.  [AttributeError a] is what
    Python raises when attribute [a] is looked up on an object that lacks
    it; [Raised] stands for whatever an external collaborator raises. *)
Inductive Exception : Type :=
| AttributeError (attr : string)
| TypeError (what : string)
| OverflowError
| Raised (what : string).

(** Messages are plain attribute trees. *)
Inductive PyVal : Type :=
| PyNone
| PyInt (z : Z)
| PyStr (s : string)
| PyObj (attrs : list (string * PyVal)).

Fixpoint assoc (a : string) (attrs : list (string * PyVal)) : option PyVal :=
  match attrs with
  | [] => None
  | (k, v) :: rest => if String.eqb k a then Some v else assoc a rest
  end.

(** [v.a] on a message value. *)
Definition getattr (v : PyVal) (a : string) : Exception + PyVal :=
  match v with
  | PyObj attrs =>
      match assoc a attrs with
      | Some x => inr x
      | None => inl (AttributeError a)
      end
  | _ => inl (AttributeError a)
  end.

(** Python's conversion of an [int] to a [float]: round to nearest, ties to
    even, and [OverflowError] when the result is not finite. *)
Definition float_of_int (z : Z) : Exception + float :=
  let f := SF2Prim (binary_normalize prec emax z 0 false) in
  if is_infinity f then inl OverflowError else inr f.

(** [n * 1e-9] for an [int] n. *)
Definition int_mul_float (n : Z) (x : float) : Exception + float :=
  match float_of_int n with
  | inl e => inl e
  | inr f => inr (f * x)%float
  end.

(** ** The store *)

(** Locations are positions in the store. *)
Abbreviation loc := nat (only parsing).

(** The instance dictionary of an object of the family.  An attribute that
    has not been assigned yet is [None]; reading it raises. *)
Record Composite : Type := mkComposite {
  name : option string;
  tasks : option (list loc);
  diag : option loc;
  freq : option loc;
  stamp : option loc;
  publisher : option loc
}.

Definition blank : Composite := mkComposite None None None None None None.

(** The carriers of the collaborators that are not part of the file: the
    two monitors of [_update_functions], the updater and the publisher. *)
Class Carriers : Type := {
  FrequencyStatusParam : Type;
  FrequencyStatus : Type;
  TimeStampStatusParam : Type;
  TimeStampStatus : Type;
  Updater : Type;
  Publisher : Type
}.

Section Store.
Context `{Carriers}.

Inductive Obj : Type :=
| OComposite (c : Composite)
| OFrequencyStatus (st : FrequencyStatus)
| OTimeStampStatus (st : TimeStampStatus)
| OUpdater (u : Updater)
| OPublisher (p : Publisher).

(** Calls that leave the family.  [EvAdd d self seen] carries the store as
    it is when [d.add(self)] is entered. *)
Inductive Event : Type :=
| EvFreqTick (f : loc)
| EvFreqClear (f : loc)
| EvStampTick (s : loc) (stamp_s : float)
| EvAdd (d self : loc) (seen : list Obj)
| EvPublish (p : loc) (message : PyVal).

Record World : Type := mkWorld {
  heap : list Obj;
  clock : float;
  trace : list Event
}.

End Store.

(** The operations of the collaborators.  The monitors' operations are total
    (spec 4.1: "No failure mode; side effect only"; spec 7: anomalies are
    "never thrown"); the updater's [add] and the publisher's [publish] may
    raise.  [Updater_add] reads the store it is handed, through which it can
    evaluate the task it receives. *)
Class Collaborators `{Carriers} : Type := {
  FrequencyStatus_init : float -> FrequencyStatusParam -> FrequencyStatus;
  FrequencyStatus_tick : float -> FrequencyStatus -> FrequencyStatus;
  FrequencyStatus_clear : float -> FrequencyStatus -> FrequencyStatus;
  TimeStampStatus_init : float -> TimeStampStatusParam -> TimeStampStatus;
  TimeStampStatus_tick : float -> float -> TimeStampStatus -> TimeStampStatus;
  Updater_add : Updater -> list Obj -> loc -> Exception + Updater;
  Publisher_topic_name : Publisher -> string;
  Publisher_publish : Publisher -> PyVal -> Exception + Publisher;
  Time_from_msg : PyVal -> Exception + Z
}.

(** ** The monad *)

Section Monad.
Context `{Collaborators}.

Definition M (A : Type) : Type := World -> World * (Exception + A).

Definition ret {A} (a : A) : M A := fun w => (w, inr a).

Definition raise {A} (e : Exception) : M A := fun w => (w, inl e).

Definition bind {A B} (c : M A) (k : A -> M B) : M B :=
  fun w =>
    match c w with
    | (w', inr a) => k a w'
    | (w', inl e) => (w', inl e)
    end.

Definition lift {A} (r : Exception + A) : M A :=
  match r with
  | inl e => raise e
  | inr a => ret a
  end.

Definition log (ev : Event) : M unit :=
  fun w => (mkWorld (heap w) (clock w) (trace w ++ [ev]), inr tt).

Definition store (l : loc) (o : Obj) : M unit :=
  fun w => (mkWorld (<[l := o]> (heap w)) (clock w) (trace w), inr tt).

(** Object creation: the new object takes the next free location. *)
Definition alloc (o : Obj) : M loc :=
  fun w => (mkWorld (heap w ++ [o]) (clock w) (trace w), inr (length (heap w))).

End Monad.

Declare Scope py_scope.
Delimit Scope py_scope with py.
Notation "x <- c ;; k" := (bind c (fun x => k))
  (at level 100, c at next level, right associativity) : py_scope.
Notation "c ;;; k" := (bind c (fun _ => k))
  (at level 100, right associativity) : py_scope.
Local Open Scope py_scope.

Section Family.
Context `{Collaborators}.

(** ** Attribute access on objects of the family *)

(** [self.a], with [proj] the field that holds attribute [a]. *)
Definition rd {A} (self : loc) (a : string) (proj : Composite -> option A) : M A :=
  fun w =>
    match heap w !! self with
    | Some (OComposite c) =>
        match proj c with
        | Some x => (w, inr x)
        | None => (w, inl (AttributeError a))
        end
    | _ => (w, inl (AttributeError a))
    end.

(** [self.a = v], with [upd] the update of the field that holds [a]. *)
Definition wr (self : loc) (upd : Composite -> Composite) : M unit :=
  fun w =>
    match heap w !! self with
    | Some (OComposite c) => store self (OComposite (upd c)) w
    | _ => (w, inl (TypeError "not an object of the family"))
    end.

Definition set_name (v : string) (c : Composite) : Composite :=
  mkComposite (Some v) (tasks c) (diag c) (freq c) (stamp c) (publisher c).
Definition set_tasks (v : list loc) (c : Composite) : Composite :=
  mkComposite (name c) (Some v) (diag c) (freq c) (stamp c) (publisher c).
Definition set_diag (v : loc) (c : Composite) : Composite :=
  mkComposite (name c) (tasks c) (Some v) (freq c) (stamp c) (publisher c).
Definition set_freq (v : loc) (c : Composite) : Composite :=
  mkComposite (name c) (tasks c) (diag c) (Some v) (stamp c) (publisher c).
Definition set_stamp (v : loc) (c : Composite) : Composite :=
  mkComposite (name c) (tasks c) (diag c) (freq c) (Some v) (publisher c).
Definition set_publisher (v : loc) (c : Composite) : Composite :=
  mkComposite (name c) (tasks c) (diag c) (freq c) (stamp c) (Some v).

(** ** Calls into the collaborators

    Each call expects an object of one class at the location it is given.
    The family's own code never puts another object there; should a caller
    have done so, the call raises without entering the collaborator: the
    object lacks the method ([AttributeError]) or, for [tick], takes other
    arguments ([TypeError]). *)

(** [FrequencyStatus(freq)]. *)
Definition new_FrequencyStatus (params : FrequencyStatusParam) : M loc :=
  fun w => alloc (OFrequencyStatus (FrequencyStatus_init (clock w) params)) w.

(** [TimeStampStatus(stamp)]. *)
Definition new_TimeStampStatus (params : TimeStampStatusParam) : M loc :=
  fun w => alloc (OTimeStampStatus (TimeStampStatus_init (clock w) params)) w.

(** [f.tick()] on a frequency monitor. *)
Definition call_FrequencyStatus_tick (f : loc) : M unit :=
  fun w =>
    match heap w !! f with
    | Some (OFrequencyStatus st) =>
        (log (EvFreqTick f);;;
         store f (OFrequencyStatus (FrequencyStatus_tick (clock w) st))) w
    | _ => (w, inl (TypeError "tick"))
    end.

(** [f.clear()] on a frequency monitor. *)
Definition call_FrequencyStatus_clear (f : loc) : M unit :=
  fun w =>
    match heap w !! f with
    | Some (OFrequencyStatus st) =>
        (log (EvFreqClear f);;;
         store f (OFrequencyStatus (FrequencyStatus_clear (clock w) st))) w
    | _ => (w, inl (AttributeError "clear"))
    end.

(** [s.tick(stamp_s)] on a timestamp monitor. *)
Definition call_TimeStampStatus_tick (s : loc) (stamp_s : float) : M unit :=
  fun w =>
    match heap w !! s with
    | Some (OTimeStampStatus st) =>
        (log (EvStampTick s stamp_s);;;
         store s (OTimeStampStatus (TimeStampStatus_tick (clock w) stamp_s st))) w
    | _ => (w, inl (TypeError "tick"))
    end.

(** [d.add(self)] on an updater: the call is entered, and its outcome is the
    updater's. *)
Definition call_Updater_add (d self : loc) : M unit :=
  fun w =>
    match heap w !! d with
    | Some (OUpdater u) =>
        (log (EvAdd d self (heap w));;;
         u' <- lift (Updater_add u (heap w) self);;
         store d (OUpdater u')) w
    | _ => (w, inl (AttributeError "add"))
    end.

(** [pub.topic_name]. *)
Definition get_topic_name (pub : loc) : M string :=
  fun w =>
    match heap w !! pub with
    | Some (OPublisher p) => (w, inr (Publisher_topic_name p))
    | _ => (w, inl (AttributeError "topic_name"))
    end.

(** [pub.publish(message)]. *)
Definition call_Publisher_publish (pub : loc) (message : PyVal) : M unit :=
  fun w =>
    match heap w !! pub with
    | Some (OPublisher p) =>
        (log (EvPublish pub message);;;
         p' <- lift (Publisher_publish p message);;
         store pub (OPublisher p')) w
    | _ => (w, inl (AttributeError "publish"))
    end.

(** ** CompositeDiagnosticTask *)

(** Modelled from the spec: [CompositeDiagnosticTask.__init__] lives in
    [_diagnostic_updater], which is not part of the sources at hand.  Spec 3:
    a CompositeTask is a name and an ordered sequence of children. *)
Definition CompositeDiagnosticTask_init (self : loc) (nm : string) : M unit :=
  wr self (set_name nm);;;
  wr self (set_tasks []).

(** Modelled from the spec: [CompositeDiagnosticTask.addTask] lives in
    [_diagnostic_updater].  Spec 4.3: "appends to the ordered child list". *)
Definition addTask (self : loc) (t : loc) : M unit :=
  ts <- rd self "tasks" tasks;;
  wr self (set_tasks (ts ++ [t])).

(** ** HeaderlessTopicDiagnostic *)

Definition HeaderlessTopicDiagnostic_init
    (self : loc) (nm : string) (d : loc) (fp : FrequencyStatusParam) : M unit :=
  CompositeDiagnosticTask_init self (nm ++ " topic status");;;
  wr self (set_diag d);;;
  f <- new_FrequencyStatus fp;;
  wr self (set_freq f);;;
  f' <- rd self "freq" freq;;
  addTask self f';;;
  d' <- rd self "diag" diag;;
  call_Updater_add d' self.

Definition HeaderlessTopicDiagnostic_tick (self : loc) : M unit :=
  f <- rd self "freq" freq;;
  call_FrequencyStatus_tick f.

Definition clear_window (self : loc) : M unit :=
  f <- rd self "freq" freq;;
  call_FrequencyStatus_clear f.

(** ** TopicDiagnostic *)

Definition TopicDiagnostic_init
    (self : loc) (nm : string) (d : loc)
    (fp : FrequencyStatusParam) (sp : TimeStampStatusParam) : M unit :=
  HeaderlessTopicDiagnostic_init self nm d fp;;;
  s <- new_TimeStampStatus sp;;
  wr self (set_stamp s);;;
  s' <- rd self "stamp" stamp;;
  addTask self s'.

Definition TopicDiagnostic_tick (self : loc) (stamp_s : float) : M unit :=
  s <- rd self "stamp" stamp;;
  call_TimeStampStatus_tick s stamp_s;;;
  HeaderlessTopicDiagnostic_tick self.

(** ** DiagnosedPublisher *)

Definition DiagnosedPublisher_init
    (self : loc) (pub : loc) (d : loc)
    (fp : FrequencyStatusParam) (sp : TimeStampStatusParam) : M unit :=
  nm <- get_topic_name pub;;
  TopicDiagnostic_init self nm d fp sp;;;
  wr self (set_publisher pub).

(** [Time.from_msg(message.header.stamp).nanoseconds * 1e-9]. *)
Definition stamp_seconds (message : PyVal) : Exception + float :=
  match getattr message "header" with
  | inl e => inl e
  | inr h =>
      match getattr h "stamp" with
      | inl e => inl e
      | inr st =>
          match Time_from_msg st with
          | inl e => inl e
          | inr ns => int_mul_float ns 1e-9%float
          end
      end
  end.

Definition publish (self : loc) (message : PyVal) : M unit :=
  stamp_s <- lift (stamp_seconds message);;
  TopicDiagnostic_tick self stamp_s;;;
  p <- rd self "publisher" publisher;;
  call_Publisher_publish p message.

(** ** Instantiation: [Class(args)] allocates the object, then runs
    [__init__] on it and returns it. *)

Definition new_HeaderlessTopicDiagnostic
    (nm : string) (d : loc) (fp : FrequencyStatusParam) : M loc :=
  self <- alloc (OComposite blank);;
  HeaderlessTopicDiagnostic_init self nm d fp;;;
  ret self.

Definition new_TopicDiagnostic
    (nm : string) (d : loc)
    (fp : FrequencyStatusParam) (sp : TimeStampStatusParam) : M loc :=
  self <- alloc (OComposite blank);;
  TopicDiagnostic_init self nm d fp sp;;;
  ret self.

Definition new_DiagnosedPublisher
    (pub : loc) (d : loc)
    (fp : FrequencyStatusParam) (sp : TimeStampStatusParam) : M loc :=
  self <- alloc (OComposite blank);;
  DiagnosedPublisher_init self pub d fp sp;;;
  ret self.

(** ** Notions used to state the properties *)

(** The classes of the objects in the store. *)
Inductive Kind : Type :=
| KComposite | KFrequencyStatus | KTimeStampStatus | KUpdater | KPublisher.

Definition kind_of (o : option Obj) : option Kind :=
  match o with
  | Some (OComposite _) => Some KComposite
  | Some (OFrequencyStatus _) => Some KFrequencyStatus
  | Some (OTimeStampStatus _) => Some KTimeStampStatus
  | Some (OUpdater _) => Some KUpdater
  | Some (OPublisher _) => Some KPublisher
  | None => None
  end.

(** The number of times an updater's [add] has been entered. *)
Fixpoint registrations (tr : list Event) : nat :=
  match tr with
  | [] => 0
  | EvAdd _ _ _ :: rest => S (registrations rest)
  | _ :: rest => registrations rest
  end.

(** The messages handed to a publisher, oldest first. *)
Fixpoint sent (tr : list Event) : list (loc * PyVal) :=
  match tr with
  | [] => []
  | EvPublish p m :: rest => (p, m) :: sent rest
  | _ :: rest => sent rest
  end.

(** The child list of the task at [self], and the classes of the children. *)
Definition children (hp : list Obj) (self : loc) : option (list loc) :=
  match hp !! self with
  | Some (OComposite c) => tasks c
  | _ => None
  end.

Definition child_kinds (hp : list Obj) (self : loc) : option (list (option Kind)) :=
  match children hp self with
  | Some ts => Some (map (fun t => kind_of (hp !! t)) ts)
  | None => None
  end.

(** The name of the task at [self]. *)
Definition task_name (hp : list Obj) (self : loc) : option string :=
  match hp !! self with
  | Some (OComposite c) => name c
  | _ => None
  end.

(** [message.header.stamp], when the message has one. *)
Definition stamp_field (message : PyVal) : option PyVal :=
  match getattr message "header" with
  | inr h =>
      match getattr h "stamp" with
      | inr st => Some st
      | inl _ => None
      end
  | inl _ => None
  end.

(** The failure the specification calls [MissingTimestampField]: the failed
    lookup of [header] on the message or of [stamp] on its header. *)
Definition MissingTimestampField (e : Exception) : Prop :=
  e = AttributeError "header" \/ e = AttributeError "stamp".

(** The store an updater is shown when a task named [nm] is registered with
    it from a store [hp]: the task with its frequency monitor as only child. *)
Definition at_registration
    (hp : list Obj) (t : float) (nm : string) (d : loc)
    (fp : FrequencyStatusParam) : list Obj :=
  hp ++ [OComposite (mkComposite (Some (nm ++ " topic status")%string)
                       (Some [S (length hp)]) (Some d) (Some (S (length hp)))
                       None None);
         OFrequencyStatus (FrequencyStatus_init t fp)].

(** The store left by the successful construction of a [TopicDiagnostic]
    ([pub] is [None]) or of a [DiagnosedPublisher] ([pub] is the publisher)
    from a store [hp], once the updater at [d] has become [u']. *)
Definition built
    (hp : list Obj) (t : float) (nm : string) (d : loc)
    (fp : FrequencyStatusParam) (sp : TimeStampStatusParam)
    (u' : Updater) (pub : option loc) : list Obj :=
  <[d := OUpdater u']> hp ++
  [OComposite (mkComposite (Some (nm ++ " topic status")%string)
                 (Some [S (length hp); S (S (length hp))]) (Some d)
                 (Some (S (length hp))) (Some (S (S (length hp)))) pub);
   OFrequencyStatus (FrequencyStatus_init t fp);
   OTimeStampStatus (TimeStampStatus_init t sp)].

(** What a call on an instance leaves alone: the number of registrations,
    the class of every object, every object of the family (so its name, its
    child list and its attributes) and every updater. *)
Definition steady (w w' : World) : Prop :=
  registrations (trace w') = registrations (trace w) /\
  (forall l, kind_of (heap w' !! l) = kind_of (heap w !! l)) /\
  (forall l c, heap w !! l = Some (OComposite c) ->
               heap w' !! l = Some (OComposite c)) /\
  (forall l u, heap w !! l = Some (OUpdater u) ->
               heap w' !! l = Some (OUpdater u)).

Definition quiet {A} (c : M A) : Prop := forall w, steady w (fst (c w)).

(** The task at [self] has the monitors at [f] and [s] as its [freq] and
    [stamp] attributes and as its children, in this order and no other. *)
Definition owns (hp : list Obj) (self f s : loc) : Prop :=
  (exists c, hp !! self = Some (OComposite c) /\ tasks c = Some [f; s] /\
             freq c = Some f /\ stamp c = Some s) /\
  kind_of (hp !! f) = Some KFrequencyStatus /\
  kind_of (hp !! s) = Some KTimeStampStatus.

(** The calls a producer makes on an instance, and a run of them.  A call
    that raises leaves the store as it is at the raise, and the run goes on. *)
Inductive Op : Type :=
| OpHeaderlessTick
| OpTick (stamp_s : float)
| OpClearWindow
| OpPublish (message : PyVal).

Definition exec (self : loc) (o : Op) : M unit :=
  match o with
  | OpHeaderlessTick => HeaderlessTopicDiagnostic_tick self
  | OpTick stamp_s => TopicDiagnostic_tick self stamp_s
  | OpClearWindow => clear_window self
  | OpPublish message => publish self message
  end.

Fixpoint run_ops (self : loc) (ops : list Op) (w : World) : World :=
  match ops with
  | [] => w
  | o :: rest => run_ops self rest (fst (exec self o w))
  end.


(** ** Notions for runs of calls *)

(** The task at [self] refers to a frequency monitor at [f], a timestamp
    monitor at [s] and a publisher at [p]. *)
Definition wired (hp : list Obj) (self f s p : loc) : Prop :=
  (exists c, hp !! self = Some (OComposite c) /\ freq c = Some f /\
             stamp c = Some s /\ publisher c = Some p) /\
  kind_of (hp !! f) = Some KFrequencyStatus /\
  kind_of (hp !! s) = Some KTimeStampStatus /\
  kind_of (hp !! p) = Some KPublisher.

(** The task at [self] refers to a frequency monitor at [f] and a timestamp
    monitor at [s]; it may or may not have a publisher. *)
Definition monitored (hp : list Obj) (self f s : loc) : Prop :=
  (exists c, hp !! self = Some (OComposite c) /\ freq c = Some f /\
             stamp c = Some s) /\
  kind_of (hp !! f) = Some KFrequencyStatus /\
  kind_of (hp !! s) = Some KTimeStampStatus.

(** The calls that leave the family when [o] is called on a task that
    refers to [f], [s] and [p]. *)
Definition calls (f s p : loc) (o : Op) : list Event :=
  match o with
  | OpHeaderlessTick => [EvFreqTick f]
  | OpTick stamp_s => [EvStampTick s stamp_s; EvFreqTick f]
  | OpClearWindow => [EvFreqClear f]
  | OpPublish message =>
      match stamp_seconds message with
      | inr stamp_s => [EvStampTick s stamp_s; EvFreqTick f; EvPublish p message]
      | inl _ => []
      end
  end.

(** The messages a run of calls hands to the publisher: those whose event
    time can be computed, in the order of the calls. *)
Fixpoint forwarded (ops : list Op) : list PyVal :=
  match ops with
  | [] => []
  | OpPublish message :: rest =>
      match stamp_seconds message with
      | inr _ => message :: forwarded rest
      | inl _ => forwarded rest
      end
  | _ :: rest => forwarded rest
  end.

(** The number of calls of [tick] on the frequency monitor at [f], and the
    stamps handed to [tick] on the timestamp monitor at [s], oldest first. *)
Fixpoint freq_ticks (f : loc) (tr : list Event) : nat :=
  match tr with
  | [] => 0
  | EvFreqTick f' :: rest =>
      if Nat.eqb f' f then S (freq_ticks f rest) else freq_ticks f rest
  | _ :: rest => freq_ticks f rest
  end.

Fixpoint stamps (s : loc) (tr : list Event) : list float :=
  match tr with
  | [] => []
  | EvStampTick s' x :: rest =>
      if Nat.eqb s' s then x :: stamps s rest else stamps s rest
  | _ :: rest => stamps s rest
  end.

(** A call made through [TopicDiagnostic.tick], [clear_window] or
    [publish], and not through the base class's [tick]. *)
Definition stamped_op (o : Op) : bool :=
  match o with
  | OpHeaderlessTick => false
  | _ => true
  end.

(** The objects a task refers to through [freq], [stamp] and [publisher]. *)
Definition refs (c : Composite) : list loc :=
  option_list (freq c) ++ option_list (stamp c) ++ option_list (publisher c).

(** From [w] to [w'] no object outside [L] has changed. *)
Definition only (L : list loc) (w w' : World) : Prop :=
  forall l, l ∉ L -> heap w' !! l = heap w !! l.

End Family.

(** ** Concrete collaborators *)

Module Demo.

Record FreqConfig : Type := mkFreqConfig {
  cfg_window_size : nat;
  cfg_min_rate : float;
  cfg_max_rate : float
}.

(** Modelled from the spec: [FrequencyStatus] lives in [_update_functions],
    which is not part of the sources at hand.  Spec 3: window size, rate
    bounds, a ring of counts, a tick counter, the time of the last
    evaluation and the current slot. *)
Record FrequencyMonitor : Type := mkFrequencyMonitor {
  fm_config : FreqConfig;
  fm_counts : list Z;
  fm_tick_count : Z;
  fm_last_eval_time : float;
  fm_current_slot_index : nat
}.

Definition fm_init (now : float) (cfg : FreqConfig) : FrequencyMonitor :=
  mkFrequencyMonitor cfg (replicate (cfg_window_size cfg) 0%Z) 0%Z now 0.

(** Spec 4.1: "increments the count in the current window slot". *)
Definition fm_tick (now : float) (m : FrequencyMonitor) : FrequencyMonitor :=
  mkFrequencyMonitor (fm_config m)
    (alter Z.succ (fm_current_slot_index m) (fm_counts m))
    (Z.succ (fm_tick_count m)) (fm_last_eval_time m) (fm_current_slot_index m).

(** Spec 4.1: "resets all slot counts and counters to zero". *)
Definition fm_clear (now : float) (m : FrequencyMonitor) : FrequencyMonitor :=
  mkFrequencyMonitor (fm_config m)
    (replicate (cfg_window_size (fm_config m)) 0%Z)
    0%Z (fm_last_eval_time m) (fm_current_slot_index m).

Record StampConfig : Type := mkStampConfig {
  cfg_min_acceptable : float;
  cfg_max_acceptable : float
}.

(** Modelled from the spec: [TimeStampStatus] lives in [_update_functions].
    Spec 3: acceptable bounds, the samples since the last evaluation, and the
    counters of late and early stamps. *)
Record TimestampMonitor : Type := mkTimestampMonitor {
  tm_config : StampConfig;
  tm_count : Z;
  tm_sum : float;
  tm_min : float;
  tm_max : float;
  tm_late_count : Z;
  tm_early_count : Z
}.

Definition tm_init (now : float) (cfg : StampConfig) : TimestampMonitor :=
  mkTimestampMonitor cfg 0%Z 0%float 0%float 0%float 0%Z 0%Z.

(** Spec 4.2: the delta is now minus the event time; a delta in the future
    is counted and not recorded, any other is folded into the running
    minimum, maximum, sum and count. *)
Definition tm_tick (now stamp_s : float) (m : TimestampMonitor) : TimestampMonitor :=
  let delta := (now - stamp_s)%float in
  if (delta <? cfg_min_acceptable (tm_config m))%float then
    mkTimestampMonitor (tm_config m) (tm_count m) (tm_sum m) (tm_min m) (tm_max m)
      (tm_late_count m) (Z.succ (tm_early_count m))
  else
    mkTimestampMonitor (tm_config m) (Z.succ (tm_count m)) (tm_sum m + delta)%float
      (if (tm_count m =? 0)%Z then delta
       else if (delta <? tm_min m)%float then delta else tm_min m)
      (if (tm_count m =? 0)%Z then delta
       else if (tm_max m <? delta)%float then delta else tm_max m)
      (tm_late_count m) (tm_early_count m).

(** An updater that evaluates a task as soon as it is registered: it keeps,
    for every registered task, the classes of the children the task had when
    it was added.  It rejects registrations once it is closed. *)
Record Registry : Type := mkRegistry {
  reg_open : bool;
  reg_seen : list (loc * list (option Kind))
}.

(** A publisher: its topic name and the messages it has accepted. *)
Record Channel : Type := mkChannel {
  ch_topic_name : string;
  ch_open : bool;
  ch_sent : list PyVal
}.

Definition carriers : Carriers :=
  Build_Carriers FreqConfig FrequencyMonitor StampConfig TimestampMonitor
                 Registry Channel.

Definition reg_add (u : Registry) (hp : list (@Obj carriers)) (self : loc)
    : Exception + Registry :=
  if reg_open u then
    match @child_kinds carriers hp self with
    | Some ks => inr (mkRegistry true (reg_seen u ++ [(self, ks)]))
    | None => inl (TypeError "not a task")
    end
  else inl (Raised "registration rejected").

Definition ch_publish (p : Channel) (message : PyVal) : Exception + Channel :=
  if ch_open p then inr (mkChannel (ch_topic_name p) true (ch_sent p ++ [message]))
  else inl (Raised "publisher closed").

(** The nanoseconds of the time built from a [builtin_interfaces] stamp:
    seconds and nanoseconds are non-negative and their total fits 63 bits. *)
Definition time_from_msg (st : PyVal) : Exception + Z :=
  match getattr st "sec", getattr st "nanosec" with
  | inr (PyInt sec), inr (PyInt nanosec) =>
      if (sec <? 0)%Z || (nanosec <? 0)%Z then inl (Raised "ValueError")
      else
        let total := (sec * 1000000000 + nanosec)%Z in
        if (2 ^ 63 <=? total)%Z then inl OverflowError else inr total
  | _, _ => inl (TypeError "Must pass a builtin_interfaces.msg.Time object")
  end.

Definition collaborators : @Collaborators carriers :=
  @Build_Collaborators carriers
    fm_init fm_tick fm_clear tm_init tm_tick
    reg_add ch_topic_name ch_publish time_from_msg.

(** A store with an open updater at 0, a publisher on [/scan] at 1 and a
    closed updater at 2; the clock reads 100 seconds. *)
Definition world0 : @World carriers :=
  @mkWorld carriers
    [@OUpdater carriers (mkRegistry true []);
     @OPublisher carriers (mkChannel "/scan" true []);
     @OUpdater carriers (mkRegistry false [])]
    100%float [].

(** A message stamped 99.5 seconds, and one without a header. *)
Definition stamped : PyVal :=
  PyObj [("header", PyObj [("stamp", PyObj [("sec", PyInt 99); ("nanosec", PyInt 500000000)]);
                           ("frame_id", PyStr "laser")]);
         ("ranges", PyNone)].

Definition headerless : PyVal := PyObj [("data", PyInt 7)].

Definition freq_cfg : FreqConfig := mkFreqConfig 5 10%float 20%float.
Definition stamp_cfg : StampConfig := mkStampConfig 0%float 1%float.

(** The store after [DiagnosedPublisher(pub, diag, freq, stamp)] with the
    publisher at 1 and the updater at 0: the instance is at 3, its frequency
    monitor at 4 and its timestamp monitor at 5. *)
Definition world1 : @World carriers :=
  fst (@new_DiagnosedPublisher carriers collaborators 1 0 freq_cfg stamp_cfg world0).

Definition task1 : Composite :=
  mkComposite (Some "/scan topic status") (Some [4; 5]) (Some 0) (Some 4) (Some 5)
              (Some 1).

Definition channel1 : Channel := mkChannel "/scan" true [].

(** A message whose stamp has negative seconds. *)
Definition misstamped : PyVal :=
  PyObj [("header", PyObj [("stamp", PyObj [("sec", PyInt (-1)); ("nanosec", PyInt 0)])])].

(** The store after the construction of a [DiagnosedPublisher], at 2 with
    its monitors at 3 and 4, around a publisher at 1 that rejects every
    message. *)
Definition channel2 : Channel := mkChannel "/scan" false [].

Definition world2 : @World carriers :=
  fst (@new_DiagnosedPublisher carriers collaborators 1 0 freq_cfg stamp_cfg
         (@mkWorld carriers
            [@OUpdater carriers (mkRegistry true []); @OPublisher carriers channel2]
            100%float [])).

Definition task2 : Composite :=
  mkComposite (Some "/scan topic status") (Some [3; 4]) (Some 0) (Some 3) (Some 4)
              (Some 1).

(** A store without any publisher: an open updater at 0 and a closed one
    at 1; and the store after [TopicDiagnostic("/imu", diag, freq, stamp)]
    there, with the instance at 2 and its monitors at 3 and 4. *)
Definition bare : @World carriers :=
  @mkWorld carriers
    [@OUpdater carriers (mkRegistry true []);
     @OUpdater carriers (mkRegistry false [])]
    100%float [].

Definition bare1 : @World carriers :=
  fst (@new_TopicDiagnostic carriers collaborators "/imu" 0 freq_cfg stamp_cfg bare).

(** A run of calls: two publications, of which the second has no stamp, a
    tick and a clearing of the window. *)
Definition some_ops : list Op :=
  [OpPublish stamped; OpPublish headerless; OpTick 99.5%float; OpClearWindow;
   OpPublish stamped].

End Demo.

(** * Properties *)

Section Properties.
Context `{Collaborators}.

(** ** The store as a list *)

Lemma lookup_at_end (h : list Obj) (o : Obj) (rest : list Obj) :
  (h ++ o :: rest) !! length h = Some o.
Proof. by apply list_lookup_middle. Qed.

Lemma lookup_after_end (h : list Obj) (o o' : Obj) (rest : list Obj) :
  (h ++ o :: o' :: rest) !! S (length h) = Some o'.
Proof.
  replace (h ++ o :: o' :: rest) with ((h ++ [o]) ++ o' :: rest)
    by (by rewrite <- app_assoc).
  apply list_lookup_middle. rewrite length_app. simpl. lia.
Qed.

Lemma insert_at_end (h : list Obj) (o o' : Obj) (rest : list Obj) :
  <[length h := o']> (h ++ o :: rest) = h ++ o' :: rest.
Proof.
  rewrite insert_app_r_alt by lia. by rewrite Nat.sub_diag.
Qed.

Lemma lookup_below (h : list Obj) (rest : list Obj) (l : loc) (o : Obj) :
  h !! l = Some o -> (h ++ rest) !! l = Some o.
Proof. intros Hl. by apply lookup_app_l_Some. Qed.

Lemma insert_below (h : list Obj) (rest : list Obj) (l : loc) (o o' : Obj) :
  h !! l = Some o -> <[l := o']> (h ++ rest) = <[l := o']> h ++ rest.
Proof.
  intros Hl. apply insert_app_l. by eapply lookup_lt_Some.
Qed.

(** ** Running the primitive steps *)

Lemma rd_run {A} (w : World) (self : loc) (a : string)
    (proj : Composite -> option A) (c : Composite) (x : A) :
  heap w !! self = Some (OComposite c) -> proj c = Some x ->
  rd self a proj w = (w, inr x).
Proof. intros Hs Hp. unfold rd. by rewrite Hs, Hp. Qed.

Lemma wr_run (w : World) (self : loc) (upd : Composite -> Composite) (c : Composite) :
  heap w !! self = Some (OComposite c) ->
  wr self upd w =
    (mkWorld (<[self := OComposite (upd c)]> (heap w)) (clock w) (trace w), inr tt).
Proof. intros Hs. unfold wr. by rewrite Hs. Qed.

Ltac norm :=
  simpl; rewrite ?insert_at_end, <- ?app_assoc; simpl;
  rewrite ?length_app; simpl;
  rewrite ?Nat.add_succ_r, ?Nat.add_0_r; simpl.
Ltac step_rd :=
  erewrite rd_run;
  [ | simpl; first [ apply lookup_at_end | eassumption ]
    | simpl; first [ reflexivity | eassumption ] ].
Ltac step_wr :=
  erewrite wr_run;
  [ | simpl; first [ apply lookup_at_end | eassumption ] ].
Ltac run :=
  unfold bind, new_FrequencyStatus, new_TimeStampStatus, alloc; norm;
  repeat first [ step_wr; norm | step_rd; norm ].

(** ** The constructors in closed form *)

Lemma HeaderlessTopicDiagnostic_init_run
    (h : list Obj) (t : float) (tr : list Event) (c0 : Composite)
    (nm : string) (d : loc) (fp : FrequencyStatusParam) (u : Updater) :
  h !! d = Some (OUpdater u) ->
  let self := length h in
  let f := S (length h) in
  let c1 := mkComposite (Some (nm ++ " topic status")%string) (Some [f]) (Some d) (Some f)
              (stamp c0) (publisher c0) in
  let h1 := h ++ [OComposite c1; OFrequencyStatus (FrequencyStatus_init t fp)] in
  HeaderlessTopicDiagnostic_init self nm d fp (mkWorld (h ++ [OComposite c0]) t tr) =
    match Updater_add u h1 self with
    | inr u' => (mkWorld (<[d := OUpdater u']> h ++
                   [OComposite c1; OFrequencyStatus (FrequencyStatus_init t fp)])
                   t (tr ++ [EvAdd d self h1]), inr tt)
    | inl e => (mkWorld h1 t (tr ++ [EvAdd d self h1]), inl e)
    end.
Proof.
  intros Hd. cbv zeta.
  unfold HeaderlessTopicDiagnostic_init, CompositeDiagnosticTask_init, addTask.
  run. unfold call_Updater_add. simpl.
  rewrite (lookup_below _ _ _ _ Hd).
  unfold bind, log, lift, store, raise, ret. simpl.
  destruct (Updater_add u _ (length h)) as [e|u']; simpl; [done|].
  by rewrite (insert_below _ _ _ _ _ Hd).
Qed.

Lemma stamp_part_run
    (h : list Obj) (t : float) (tr : list Event) (c1 : Composite) (o : Obj)
    (ts : list loc) (sp : TimeStampStatusParam) :
  tasks c1 = Some ts ->
  (s <- new_TimeStampStatus sp;;
   wr (length h) (set_stamp s);;;
   s' <- rd (length h) "stamp" stamp;;
   addTask (length h) s') (mkWorld (h ++ [OComposite c1; o]) t tr) =
  (mkWorld (h ++ [OComposite (mkComposite (name c1) (Some (ts ++ [S (S (length h))]))
                                 (diag c1) (freq c1) (Some (S (S (length h))))
                                 (publisher c1));
                  o; OTimeStampStatus (TimeStampStatus_init t sp)]) t tr, inr tt).
Proof.
  intros Hts. unfold addTask. by run.
Qed.

Lemma new_HeaderlessTopicDiagnostic_run
    (w : World) (nm : string) (d : loc) (fp : FrequencyStatusParam) (u : Updater) :
  heap w !! d = Some (OUpdater u) ->
  let self := length (heap w) in
  let seen := at_registration (heap w) (clock w) nm d fp in
  new_HeaderlessTopicDiagnostic nm d fp w =
    match Updater_add u seen self with
    | inr u' => (mkWorld (<[d := OUpdater u']> seen) (clock w)
                   (trace w ++ [EvAdd d self seen]), inr self)
    | inl e => (mkWorld seen (clock w) (trace w ++ [EvAdd d self seen]), inl e)
    end.
Proof.
  destruct w as [h t tr]. simpl. intros Hd.
  unfold new_HeaderlessTopicDiagnostic, at_registration.
  unfold bind at 1. unfold alloc at 1. simpl.
  unfold bind at 1.
  rewrite (HeaderlessTopicDiagnostic_init_run h t tr blank nm d fp u Hd). simpl.
  destruct (Updater_add u _ (length h)) as [e|u']; [done|].
  by rewrite (insert_below _ _ _ _ _ Hd).
Qed.

Lemma new_TopicDiagnostic_run
    (w : World) (nm : string) (d : loc)
    (fp : FrequencyStatusParam) (sp : TimeStampStatusParam) (u : Updater) :
  heap w !! d = Some (OUpdater u) ->
  let self := length (heap w) in
  let seen := at_registration (heap w) (clock w) nm d fp in
  new_TopicDiagnostic nm d fp sp w =
    match Updater_add u seen self with
    | inr u' => (mkWorld (built (heap w) (clock w) nm d fp sp u' None) (clock w)
                   (trace w ++ [EvAdd d self seen]), inr self)
    | inl e => (mkWorld seen (clock w) (trace w ++ [EvAdd d self seen]), inl e)
    end.
Proof.
  destruct w as [h t tr]. simpl. intros Hd.
  unfold new_TopicDiagnostic, TopicDiagnostic_init, at_registration, built.
  unfold bind at 1. unfold alloc at 1. simpl.
  unfold bind at 1. unfold bind at 1.
  rewrite (HeaderlessTopicDiagnostic_init_run h t tr blank nm d fp u Hd). simpl.
  destruct (Updater_add u _ (length h)) as [e|u']; [done|].
  rewrite <- (length_insert h d (OUpdater u')).
  erewrite stamp_part_run by reflexivity. done.
Qed.

Lemma new_DiagnosedPublisher_run
    (w : World) (pub d : loc)
    (fp : FrequencyStatusParam) (sp : TimeStampStatusParam)
    (u : Updater) (p : Publisher) :
  heap w !! d = Some (OUpdater u) ->
  heap w !! pub = Some (OPublisher p) ->
  let self := length (heap w) in
  let nm := Publisher_topic_name p in
  let seen := at_registration (heap w) (clock w) nm d fp in
  new_DiagnosedPublisher pub d fp sp w =
    match Updater_add u seen self with
    | inr u' => (mkWorld (built (heap w) (clock w) nm d fp sp u' (Some pub)) (clock w)
                   (trace w ++ [EvAdd d self seen]), inr self)
    | inl e => (mkWorld seen (clock w) (trace w ++ [EvAdd d self seen]), inl e)
    end.
Proof.
  destruct w as [h t tr]. simpl. intros Hd Hp.
  unfold new_DiagnosedPublisher, DiagnosedPublisher_init, TopicDiagnostic_init,
    at_registration, built.
  unfold bind at 1. unfold alloc at 1. simpl.
  unfold bind at 1. unfold bind at 1. unfold bind at 1.
  unfold get_topic_name at 1. simpl.
  rewrite (lookup_below _ _ _ _ Hp).
  unfold bind at 1.
  rewrite (HeaderlessTopicDiagnostic_init_run h t tr blank _ d fp u Hd). simpl.
  destruct (Updater_add u _ (length h)) as [e|u']; [done|].
  rewrite <- (length_insert h d (OUpdater u')).
  erewrite stamp_part_run by reflexivity. simpl.
  step_wr. norm. done.
Qed.

(** ** Calls that leave the updater and the tasks alone *)

Lemma registrations_app (tr tr' : list Event) :
  registrations (tr ++ tr') = registrations tr + registrations tr'.
Proof.
  induction tr as [|ev tr IH]; simpl; [done|].
  destruct ev; simpl; rewrite IH; lia.
Qed.

Lemma sent_app (tr tr' : list Event) : sent (tr ++ tr') = sent tr ++ sent tr'.
Proof.
  induction tr as [|ev tr IH]; simpl; [done|].
  destruct ev; simpl; by rewrite IH.
Qed.

Lemma steady_refl (w : World) : steady w w.
Proof. by repeat split. Qed.

Lemma steady_trans (w1 w2 w3 : World) :
  steady w1 w2 -> steady w2 w3 -> steady w1 w3.
Proof.
  intros (Hr & Hk & Hc & Hu) (Hr' & Hk' & Hc' & Hu'). repeat split.
  - by rewrite Hr', Hr.
  - intros l. by rewrite Hk', Hk.
  - intros l c Hl. by apply Hc', Hc.
  - intros l u Hl. by apply Hu', Hu.
Qed.

Lemma insert_kind (h : list Obj) (f l : loc) (o o' : Obj) :
  h !! f = Some o -> kind_of (Some o') = kind_of (Some o) ->
  kind_of (<[f := o']> h !! l) = kind_of (h !! l).
Proof.
  intros Hf Hk. destruct (decide (l = f)) as [->|Hne].
  - rewrite list_lookup_insert_eq by (by eapply lookup_lt_Some). by rewrite Hf.
  - by rewrite list_lookup_insert_ne.
Qed.

Lemma insert_other (h : list Obj) (f l : loc) (o o' x : Obj) :
  h !! f = Some o -> h !! l = Some x -> kind_of (Some x) <> kind_of (Some o) ->
  <[f := o']> h !! l = Some x.
Proof.
  intros Hf Hl Hk. destruct (decide (l = f)) as [->|Hne].
  - congruence.
  - by rewrite list_lookup_insert_ne.
Qed.

(** Replacing an object by one of its class, not a task nor an updater, and
    logging an event that is not a registration. *)
Lemma steady_update (w : World) (f : loc) (o o' : Obj) (ev : Event) :
  heap w !! f = Some o ->
  kind_of (Some o') = kind_of (Some o) ->
  kind_of (Some o) <> Some KComposite ->
  kind_of (Some o) <> Some KUpdater ->
  registrations [ev] = 0 ->
  steady w (mkWorld (<[f := o']> (heap w)) (clock w) (trace w ++ [ev])).
Proof.
  intros Hf Hk Hc Hu Hev. repeat split; simpl.
  - rewrite registrations_app, Hev. lia.
  - intros l. by eapply insert_kind.
  - intros l c Hl. eapply insert_other; eauto; simpl; congruence.
  - intros l u Hl. eapply insert_other; eauto; simpl; congruence.
Qed.

Lemma steady_log (w : World) (ev : Event) :
  registrations [ev] = 0 ->
  steady w (mkWorld (heap w) (clock w) (trace w ++ [ev])).
Proof.
  intros Hev. repeat split; simpl; try done.
  rewrite registrations_app, Hev. lia.
Qed.

Lemma quiet_ret {A} (a : A) : quiet (ret a).
Proof. intros w. apply steady_refl. Qed.

Lemma quiet_raise {A} (e : Exception) : quiet (raise e : M A).
Proof. intros w. apply steady_refl. Qed.

Lemma quiet_lift {A} (r : Exception + A) : quiet (lift r).
Proof. destruct r; [apply quiet_raise | apply quiet_ret]. Qed.

Lemma quiet_bind {A B} (c : M A) (k : A -> M B) :
  quiet c -> (forall a, quiet (k a)) -> quiet (bind c k).
Proof.
  intros Hc Hk w. unfold bind. specialize (Hc w).
  destruct (c w) as [w' [e|a]]; simpl in *; [done|].
  eapply steady_trans; [exact Hc | apply Hk].
Qed.

Lemma quiet_rd {A} (self : loc) (a : string) (proj : Composite -> option A) :
  quiet (rd self a proj).
Proof.
  intros w. unfold rd.
  destruct (heap w !! self) as [[c| | | |]|]; try apply steady_refl.
  destruct (proj c); apply steady_refl.
Qed.

Lemma quiet_call_FrequencyStatus_tick (f : loc) : quiet (call_FrequencyStatus_tick f).
Proof.
  intros w. unfold call_FrequencyStatus_tick.
  destruct (heap w !! f) as [[| st | | |]|] eqn:Hf; try apply steady_refl.
  simpl. by eapply steady_update.
Qed.

Lemma quiet_call_FrequencyStatus_clear (f : loc) : quiet (call_FrequencyStatus_clear f).
Proof.
  intros w. unfold call_FrequencyStatus_clear.
  destruct (heap w !! f) as [[| st | | |]|] eqn:Hf; try apply steady_refl.
  simpl. by eapply steady_update.
Qed.

Lemma quiet_call_TimeStampStatus_tick (s : loc) (x : float) :
  quiet (call_TimeStampStatus_tick s x).
Proof.
  intros w. unfold call_TimeStampStatus_tick.
  destruct (heap w !! s) as [[| | st | |]|] eqn:Hs; try apply steady_refl.
  simpl. by eapply steady_update.
Qed.

Lemma quiet_call_Publisher_publish (p : loc) (m : PyVal) :
  quiet (call_Publisher_publish p m).
Proof.
  intros w. unfold call_Publisher_publish.
  destruct (heap w !! p) as [[| | | | pb]|] eqn:Hp; try apply steady_refl.
  unfold bind, log, lift. simpl.
  destruct (Publisher_publish pb m) as [e|pb']; simpl.
  - by apply steady_log.
  - by eapply steady_update.
Qed.

Lemma quiet_HeaderlessTopicDiagnostic_tick (self : loc) :
  quiet (HeaderlessTopicDiagnostic_tick self).
Proof.
  apply quiet_bind; [apply quiet_rd|]. intros f.
  apply quiet_call_FrequencyStatus_tick.
Qed.

Lemma quiet_clear_window (self : loc) : quiet (clear_window self).
Proof.
  apply quiet_bind; [apply quiet_rd|]. intros f.
  apply quiet_call_FrequencyStatus_clear.
Qed.

Lemma quiet_TopicDiagnostic_tick (self : loc) (x : float) :
  quiet (TopicDiagnostic_tick self x).
Proof.
  apply quiet_bind; [apply quiet_rd|]. intros s.
  apply quiet_bind; [apply quiet_call_TimeStampStatus_tick|]. intros _.
  apply quiet_HeaderlessTopicDiagnostic_tick.
Qed.

Lemma quiet_publish (self : loc) (m : PyVal) : quiet (publish self m).
Proof.
  apply quiet_bind; [apply quiet_lift|]. intros x.
  apply quiet_bind; [apply quiet_TopicDiagnostic_tick|]. intros _.
  apply quiet_bind; [apply quiet_rd|]. intros p.
  apply quiet_call_Publisher_publish.
Qed.

Lemma quiet_exec (self : loc) (o : Op) : quiet (exec self o).
Proof.
  destruct o; simpl.
  - apply quiet_HeaderlessTopicDiagnostic_tick.
  - apply quiet_TopicDiagnostic_tick.
  - apply quiet_clear_window.
  - apply quiet_publish.
Qed.

Lemma steady_run_ops (self : loc) (ops : list Op) (w : World) :
  steady w (run_ops self ops w).
Proof.
  revert w. induction ops as [|o ops IH]; intros w; simpl.
  - apply steady_refl.
  - eapply steady_trans; [apply quiet_exec | apply IH].
Qed.

(** ** The calls on an instance in closed form *)

Lemma call_TimeStampStatus_tick_run (w : World) (s : loc) (x : float)
    (st : TimeStampStatus) :
  heap w !! s = Some (OTimeStampStatus st) ->
  call_TimeStampStatus_tick s x w =
    (mkWorld (<[s := OTimeStampStatus (TimeStampStatus_tick (clock w) x st)]> (heap w))
       (clock w) (trace w ++ [EvStampTick s x]), inr tt).
Proof. intros Hs. unfold call_TimeStampStatus_tick. by rewrite Hs. Qed.

Lemma call_FrequencyStatus_tick_run (w : World) (f : loc) (st : FrequencyStatus) :
  heap w !! f = Some (OFrequencyStatus st) ->
  call_FrequencyStatus_tick f w =
    (mkWorld (<[f := OFrequencyStatus (FrequencyStatus_tick (clock w) st)]> (heap w))
       (clock w) (trace w ++ [EvFreqTick f]), inr tt).
Proof. intros Hf. unfold call_FrequencyStatus_tick. by rewrite Hf. Qed.

Lemma HeaderlessTopicDiagnostic_tick_run
    (w : World) (self f : loc) (c : Composite) (st : FrequencyStatus) :
  heap w !! self = Some (OComposite c) -> freq c = Some f ->
  heap w !! f = Some (OFrequencyStatus st) ->
  HeaderlessTopicDiagnostic_tick self w =
    (mkWorld (<[f := OFrequencyStatus (FrequencyStatus_tick (clock w) st)]> (heap w))
       (clock w) (trace w ++ [EvFreqTick f]), inr tt).
Proof.
  intros Hself Hfreq Hf. unfold HeaderlessTopicDiagnostic_tick, bind.
  rewrite (rd_run w self "freq" freq c f Hself Hfreq).
  by apply call_FrequencyStatus_tick_run.
Qed.

Lemma clear_window_run
    (w : World) (self f : loc) (c : Composite) (st : FrequencyStatus) :
  heap w !! self = Some (OComposite c) -> freq c = Some f ->
  heap w !! f = Some (OFrequencyStatus st) ->
  clear_window self w =
    (mkWorld (<[f := OFrequencyStatus (FrequencyStatus_clear (clock w) st)]> (heap w))
       (clock w) (trace w ++ [EvFreqClear f]), inr tt).
Proof.
  intros Hself Hfreq Hf. unfold clear_window, bind.
  rewrite (rd_run w self "freq" freq c f Hself Hfreq).
  unfold call_FrequencyStatus_clear. by rewrite Hf.
Qed.

Lemma TopicDiagnostic_tick_run
    (w : World) (self f s : loc) (c : Composite)
    (fst0 : FrequencyStatus) (sst : TimeStampStatus) (x : float) :
  heap w !! self = Some (OComposite c) -> freq c = Some f -> stamp c = Some s ->
  heap w !! f = Some (OFrequencyStatus fst0) ->
  heap w !! s = Some (OTimeStampStatus sst) ->
  TopicDiagnostic_tick self x w =
    (mkWorld (<[f := OFrequencyStatus (FrequencyStatus_tick (clock w) fst0)]>
                (<[s := OTimeStampStatus (TimeStampStatus_tick (clock w) x sst)]> (heap w)))
       (clock w) (trace w ++ [EvStampTick s x; EvFreqTick f]), inr tt).
Proof.
  intros Hself Hfreq Hstamp Hf Hs. unfold TopicDiagnostic_tick.
  unfold bind at 1. rewrite (rd_run w self "stamp" stamp c s Hself Hstamp).
  unfold bind at 1. rewrite (call_TimeStampStatus_tick_run w s x sst Hs).
  erewrite HeaderlessTopicDiagnostic_tick_run; simpl.
  - by rewrite <- app_assoc.
  - eapply insert_other; [exact Hs | exact Hself | simpl; congruence].
  - exact Hfreq.
  - eapply insert_other; [exact Hs | exact Hf | simpl; congruence].
Qed.

Lemma ticked_other (h : list Obj) (f s l : loc) (o1 o2 o1' o2' x : Obj) :
  h !! f = Some o1 -> h !! s = Some o2 -> h !! l = Some x ->
  kind_of (Some x) <> kind_of (Some o1) ->
  kind_of (Some x) <> kind_of (Some o2) ->
  <[f := o1']> (<[s := o2']> h) !! l = Some x.
Proof.
  intros Hf Hs Hl Hkf Hks.
  destruct (decide (l = f)) as [->|Hnf]; [congruence|].
  destruct (decide (l = s)) as [->|Hns]; [congruence|].
  by rewrite !list_lookup_insert_ne.
Qed.

(** ** Publishing *)

Lemma stamp_seconds_missing (message : PyVal) :
  stamp_field message = None ->
  exists e, MissingTimestampField e /\ stamp_seconds message = inl e.
Proof.
  unfold stamp_field, stamp_seconds, MissingTimestampField, getattr.
  destruct message as [| | |attrs]; try (intros _; eexists; split; [by left|done]).
  destruct (assoc "header" attrs) as [hd|];
    [|intros _; eexists; split; [by left|done]].
  destruct hd as [| | |hattrs]; try (intros _; eexists; split; [by right|done]).
  destruct (assoc "stamp" hattrs) as [st|]; [done|].
  intros _. eexists. split; [by right|done].
Qed.

Lemma stamp_seconds_present (message st : PyVal) (ns : Z) (x : float) :
  stamp_field message = Some st -> Time_from_msg st = inr ns ->
  float_of_int ns = inr x ->
  stamp_seconds message = inr (x * 1e-9)%float.
Proof.
  unfold stamp_field, stamp_seconds, int_mul_float.
  destruct (getattr message "header") as [e|hd]; [done|].
  destruct (getattr hd "stamp") as [e|st']; [done|].
  intros [= ->] -> ->. done.
Qed.

(** C1: a payload without [header.stamp] makes [publish] fail with the
    failure the specification calls MissingTimestampField.  The failure is
    the outcome of the call, so it reaches the caller; the store and the
    trace are those before the call, so nothing was recorded in a monitor
    and the publisher was not called. *)
Theorem publish_missing_timestamp (w : World) (self : loc) (message : PyVal) :
  stamp_field message = None ->
  exists e,
    MissingTimestampField e /\
    publish self message w = (w, inl e) /\
    sent (trace (fst (publish self message w))) = sent (trace w).
Proof.
  intros Hm. destruct (stamp_seconds_missing message Hm) as (e & He & Hs).
  exists e. split; [exact He|].
  assert (Hp : publish self message w = (w, inl e)).
  { unfold publish, bind. by rewrite Hs. }
  split; [exact Hp|]. by rewrite Hp.
Qed.

(** C2: on an instance with its two monitors and its publisher, a payload
    with [header.stamp] is published in three steps.  The event time is the
    double nearest to the stamp's nanoseconds, times 1e-9; [tick] is called
    with it, which ticks both monitors; then the payload itself is handed
    once to the publisher held by the instance, whose answer decides the
    outcome and, when it accepts, becomes its new state. *)
Theorem publish_well_formed
    (w : World) (self f s p : loc) (c : Composite)
    (fst0 : FrequencyStatus) (sst : TimeStampStatus) (pb : Publisher)
    (message st : PyVal) (ns : Z) :
  heap w !! self = Some (OComposite c) ->
  freq c = Some f -> stamp c = Some s -> publisher c = Some p ->
  heap w !! f = Some (OFrequencyStatus fst0) ->
  heap w !! s = Some (OTimeStampStatus sst) ->
  heap w !! p = Some (OPublisher pb) ->
  stamp_field message = Some st ->
  Time_from_msg st = inr ns ->
  let x := SF2Prim (binary_normalize prec emax ns 0 false) in
  is_infinity x = false ->
  let stamp_s := (x * 1e-9)%float in
  let ticked :=
    <[f := OFrequencyStatus (FrequencyStatus_tick (clock w) fst0)]>
      (<[s := OTimeStampStatus (TimeStampStatus_tick (clock w) stamp_s sst)]> (heap w)) in
  let w1 := mkWorld ticked (clock w) (trace w ++ [EvStampTick s stamp_s; EvFreqTick f]) in
  let tr := trace w ++ [EvStampTick s stamp_s; EvFreqTick f; EvPublish p message] in
  TopicDiagnostic_tick self stamp_s w = (w1, inr tt) /\
  publish self message w = call_Publisher_publish p message w1 /\
  publish self message w =
    match Publisher_publish pb message with
    | inl e => (mkWorld ticked (clock w) tr, inl e)
    | inr pb' => (mkWorld (<[p := OPublisher pb']> ticked) (clock w) tr, inr tt)
    end /\
  ticked !! f = Some (OFrequencyStatus (FrequencyStatus_tick (clock w) fst0)) /\
  ticked !! s = Some (OTimeStampStatus (TimeStampStatus_tick (clock w) stamp_s sst)) /\
  ticked !! p = Some (OPublisher pb) /\
  (forall pb', Publisher_publish pb message = inr pb' ->
     heap (fst (publish self message w)) !! p = Some (OPublisher pb') /\
     heap (fst (publish self message w)) !! f = ticked !! f /\
     heap (fst (publish self message w)) !! s = ticked !! s) /\
  trace (fst (publish self message w)) = tr /\
  sent (trace (fst (publish self message w))) = sent (trace w) ++ [(p, message)] /\
  snd (publish self message w) =
    match Publisher_publish pb message with
    | inl e => inl e
    | inr _ => inr tt
    end.
Proof.
  intros Hself Hfreq Hstamp Hpub Hf Hs Hp Hm Ht x Hfin stamp_s ticked w1 tr.
  assert (Hx : float_of_int ns = inr x).
  { unfold float_of_int. fold x. by rewrite Hfin. }
  pose proof (TopicDiagnostic_tick_run w self f s c fst0 sst stamp_s
                Hself Hfreq Hstamp Hf Hs) as Htick.
  fold ticked in Htick. fold w1 in Htick.
  pose proof (ticked_other (heap w) f s self _ _
                (OFrequencyStatus (FrequencyStatus_tick (clock w) fst0))
                (OTimeStampStatus (TimeStampStatus_tick (clock w) stamp_s sst))
                _ Hf Hs Hself) as Hself'.
  pose proof (ticked_other (heap w) f s p _ _
                (OFrequencyStatus (FrequencyStatus_tick (clock w) fst0))
                (OTimeStampStatus (TimeStampStatus_tick (clock w) stamp_s sst))
                _ Hf Hs Hp) as Hp'.
  simpl in Hself', Hp'.
  specialize (Hself' ltac:(congruence) ltac:(congruence)).
  specialize (Hp' ltac:(congruence) ltac:(congruence)).
  fold ticked in Hself', Hp'.
  assert (Hfs : f <> s) by congruence.
  assert (Hpf : p <> f) by congruence.
  assert (Hps : p <> s) by congruence.
  assert (Hf' : ticked !! f =
                Some (OFrequencyStatus (FrequencyStatus_tick (clock w) fst0))).
  { apply list_lookup_insert_eq. rewrite length_insert. by eapply lookup_lt_Some. }
  assert (Hs' : ticked !! s =
                Some (OTimeStampStatus (TimeStampStatus_tick (clock w) stamp_s sst))).
  { unfold ticked. rewrite list_lookup_insert_ne by done.
    apply list_lookup_insert_eq. by eapply lookup_lt_Some. }
  assert (Hrun : publish self message w = call_Publisher_publish p message w1).
  { unfold publish. unfold bind at 1.
    rewrite (stamp_seconds_present message st ns x Hm Ht Hx). simpl.
    unfold bind at 1. fold stamp_s. rewrite Htick.
    unfold bind at 1. erewrite rd_run; [reflexivity | exact Hself' | exact Hpub]. }
  assert (Hclosed : publish self message w =
            match Publisher_publish pb message with
            | inl e => (mkWorld ticked (clock w) tr, inl e)
            | inr pb' => (mkWorld (<[p := OPublisher pb']> ticked) (clock w) tr, inr tt)
            end).
  { rewrite Hrun. unfold call_Publisher_publish. simpl. rewrite Hp'.
    unfold bind, log, lift, store, raise, ret. simpl. subst tr.
    destruct (Publisher_publish pb message) as [e|pb']; simpl;
      by rewrite <- app_assoc. }
  split; [exact Htick|]. split; [exact Hrun|]. split; [exact Hclosed|].
  split; [exact Hf'|]. split; [exact Hs'|]. split; [exact Hp'|].
  rewrite Hclosed. split.
  { intros pb' ->. cbn [fst heap]. split_and!.
    - apply list_lookup_insert_eq. by eapply lookup_lt_Some.
    - by rewrite list_lookup_insert_ne.
    - by rewrite list_lookup_insert_ne. }
  destruct (Publisher_publish pb message) as [e|pb']; cbn [fst snd trace];
    split_and!; try done; subst tr; by rewrite !sent_app.
Qed.

(** C3: on an instance with its two monitors, [tick] first records the stamp
    in the timestamp monitor, in a store where the frequency monitor is still
    as it was, and then ticks the frequency monitor. *)
Theorem TopicDiagnostic_tick_stamp_first
    (w : World) (self f s : loc) (c : Composite)
    (fst0 : FrequencyStatus) (sst : TimeStampStatus) (x : float) :
  heap w !! self = Some (OComposite c) -> freq c = Some f -> stamp c = Some s ->
  heap w !! f = Some (OFrequencyStatus fst0) ->
  heap w !! s = Some (OTimeStampStatus sst) ->
  exists w1,
    call_TimeStampStatus_tick s x w = (w1, inr tt) /\
    heap w1 !! s = Some (OTimeStampStatus (TimeStampStatus_tick (clock w) x sst)) /\
    heap w1 !! f = Some (OFrequencyStatus fst0) /\
    trace w1 = trace w ++ [EvStampTick s x] /\
    TopicDiagnostic_tick self x w = call_FrequencyStatus_tick f w1 /\
    trace (fst (TopicDiagnostic_tick self x w)) =
      trace w ++ [EvStampTick s x; EvFreqTick f] /\
    heap (fst (TopicDiagnostic_tick self x w)) !! f =
      Some (OFrequencyStatus (FrequencyStatus_tick (clock w) fst0)).
Proof.
  intros Hself Hfreq Hstamp Hf Hs.
  assert (Hf1 : <[s := OTimeStampStatus (TimeStampStatus_tick (clock w) x sst)]> (heap w) !! f
                = Some (OFrequencyStatus fst0)).
  { eapply insert_other; [exact Hs | exact Hf | simpl; congruence]. }
  eexists. split; [by apply call_TimeStampStatus_tick_run|]. simpl.
  split. { apply list_lookup_insert_eq. by eapply lookup_lt_Some. }
  split; [exact Hf1|]. split; [done|].
  rewrite (TopicDiagnostic_tick_run w self f s c fst0 sst x Hself Hfreq Hstamp Hf Hs).
  split.
  { erewrite call_FrequencyStatus_tick_run by exact Hf1. simpl.
    by rewrite <- app_assoc. }
  split; [done|]. simpl.
  apply list_lookup_insert_eq. rewrite length_insert. by eapply lookup_lt_Some.
Qed.

(** ** Construction *)

Lemma seen_self (h : list Obj) (t : float) (nm : string) (d : loc)
    (fp : FrequencyStatusParam) :
  at_registration h t nm d fp !! length h =
    Some (OComposite (mkComposite (Some (nm ++ " topic status")%string)
                        (Some [S (length h)]) (Some d) (Some (S (length h)))
                        None None)).
Proof. apply lookup_at_end. Qed.

Lemma seen_freq (h : list Obj) (t : float) (nm : string) (d : loc)
    (fp : FrequencyStatusParam) :
  at_registration h t nm d fp !! S (length h) =
    Some (OFrequencyStatus (FrequencyStatus_init t fp)).
Proof. apply lookup_after_end. Qed.

Lemma seen_length (h : list Obj) (t : float) (nm : string) (d : loc)
    (fp : FrequencyStatusParam) :
  length (at_registration h t nm d fp) = length h + 2.
Proof. unfold at_registration. by rewrite length_app. Qed.

Lemma seen_old (h : list Obj) (t : float) (nm : string) (d : loc)
    (fp : FrequencyStatusParam) (l : loc) :
  l < length h -> at_registration h t nm d fp !! l = h !! l.
Proof. intros Hl. unfold at_registration. by rewrite lookup_app_l. Qed.

Lemma insert_above (h : list Obj) (d l : loc) (o x : Obj) :
  h !! d = Some o -> forall hp : list Obj,
  length h <= l -> <[d := x]> hp !! l = hp !! l.
Proof.
  intros Hd hp Hl. apply list_lookup_insert_ne.
  apply lookup_lt_Some in Hd. lia.
Qed.

Lemma built_self (h : list Obj) (t : float) (nm : string) (d : loc)
    (fp : FrequencyStatusParam) (sp : TimeStampStatusParam)
    (u' : Updater) (pub : option loc) :
  built h t nm d fp sp u' pub !! length h =
    Some (OComposite (mkComposite (Some (nm ++ " topic status")%string)
                        (Some [S (length h); S (S (length h))]) (Some d)
                        (Some (S (length h))) (Some (S (S (length h)))) pub)).
Proof.
  unfold built. apply list_lookup_middle. by rewrite length_insert.
Qed.

Lemma built_freq (h : list Obj) (t : float) (nm : string) (d : loc)
    (fp : FrequencyStatusParam) (sp : TimeStampStatusParam)
    (u' : Updater) (pub : option loc) :
  built h t nm d fp sp u' pub !! S (length h) =
    Some (OFrequencyStatus (FrequencyStatus_init t fp)).
Proof.
  unfold built. rewrite lookup_app_r by (rewrite length_insert; lia).
  rewrite length_insert.
  by replace (S (length h) - length h) with 1 by lia.
Qed.

Lemma built_stamp (h : list Obj) (t : float) (nm : string) (d : loc)
    (fp : FrequencyStatusParam) (sp : TimeStampStatusParam)
    (u' : Updater) (pub : option loc) :
  built h t nm d fp sp u' pub !! S (S (length h)) =
    Some (OTimeStampStatus (TimeStampStatus_init t sp)).
Proof.
  unfold built. rewrite lookup_app_r by (rewrite length_insert; lia).
  rewrite length_insert.
  by replace (S (S (length h)) - length h) with 2 by lia.
Qed.

Lemma built_updater (h : list Obj) (t : float) (nm : string) (d : loc)
    (fp : FrequencyStatusParam) (sp : TimeStampStatusParam)
    (u u' : Updater) (pub : option loc) :
  h !! d = Some (OUpdater u) ->
  built h t nm d fp sp u' pub !! d = Some (OUpdater u').
Proof.
  intros Hd. unfold built. apply lookup_app_l_Some.
  apply list_lookup_insert_eq. by eapply lookup_lt_Some.
Qed.

Lemma built_owns (h : list Obj) (t : float) (nm : string) (d : loc)
    (fp : FrequencyStatusParam) (sp : TimeStampStatusParam)
    (u' : Updater) (pub : option loc) :
  owns (built h t nm d fp sp u' pub) (length h) (S (length h)) (S (S (length h))).
Proof.
  split; [|split].
  - eexists. split; [apply built_self|]. by simpl.
  - by rewrite built_freq.
  - by rewrite built_stamp.
Qed.

Lemma owns_steady (w w' : World) (self f s : loc) :
  steady w w' -> owns (heap w) self f s -> owns (heap w') self f s.
Proof.
  intros (_ & Hk & Hc & _) ((c & Hself & Hrest) & Hf & Hs).
  split; [|split].
  - exists c. split; [by apply Hc | exact Hrest].
  - by rewrite Hk.
  - by rewrite Hk.
Qed.

Lemma owns_child_kinds (hp : list Obj) (self f s : loc) :
  owns hp self f s ->
  child_kinds hp self = Some [Some KFrequencyStatus; Some KTimeStampStatus].
Proof.
  intros ((c & Hself & Hts & _) & Hf & Hs).
  unfold child_kinds, children. rewrite Hself, Hts. simpl. by rewrite Hf, Hs.
Qed.



Lemma seen_updater (h : list Obj) (t : float) (nm : string) (d : loc)
    (fp : FrequencyStatusParam) (u : Updater) :
  h !! d = Some (OUpdater u) ->
  at_registration h t nm d fp !! d = Some (OUpdater u).
Proof. intros Hd. unfold at_registration. by apply lookup_app_l_Some. Qed.

(** C4: constructing a [HeaderlessTopicDiagnostic] leaves a task named
    [nm] followed by " topic status", whose only child is the one frequency
    monitor built from the configuration; the task and that monitor are the
    only new objects, and the updater's [add] is entered once, with the task
    and not the monitor. *)
Theorem HeaderlessTopicDiagnostic_construction
    (w : World) (nm : string) (d : loc) (fp : FrequencyStatusParam) (u : Updater) :
  heap w !! d = Some (OUpdater u) ->
  let self := length (heap w) in
  let f := S (length (heap w)) in
  let seen := at_registration (heap w) (clock w) nm d fp in
  let w' := fst (new_HeaderlessTopicDiagnostic nm d fp w) in
  task_name (heap w') self = Some (nm ++ " topic status")%string /\
  children (heap w') self = Some [f] /\
  heap w' !! f = Some (OFrequencyStatus (FrequencyStatus_init (clock w) fp)) /\
  length (heap w') = length (heap w) + 2 /\
  (forall l, l < length (heap w) -> kind_of (heap w' !! l) = kind_of (heap w !! l)) /\
  trace w' = trace w ++ [EvAdd d self seen] /\
  (forall u', Updater_add u seen self = inr u' ->
     snd (new_HeaderlessTopicDiagnostic nm d fp w) = inr self /\
     heap w' !! d = Some (OUpdater u')).
Proof.
  intros Hd. cbv zeta.
  rewrite (new_HeaderlessTopicDiagnostic_run w nm d fp u Hd). cbv zeta.
  pose proof (seen_self (heap w) (clock w) nm d fp) as Hself.
  pose proof (seen_freq (heap w) (clock w) nm d fp) as Hf.
  pose proof (seen_updater (heap w) (clock w) nm d fp u Hd) as Hu.
  pose proof (seen_length (heap w) (clock w) nm d fp) as Hlen.
  set (seen := at_registration (heap w) (clock w) nm d fp) in *.
  destruct (Updater_add u seen (length (heap w))) as [e|u1] eqn:Hadd;
    cbn [fst snd heap trace clock].
  - unfold task_name, children. rewrite Hself. cbn [name tasks].
    split_and!; try done.
    intros l Hl. subst seen. by rewrite seen_old.
  - unfold task_name, children.
    rewrite (insert_above (heap w) d (length (heap w)) _ _ Hd seen) by lia.
    rewrite (insert_above (heap w) d (S (length (heap w))) _ _ Hd seen) by lia.
    rewrite Hself. cbn [name tasks]. split_and!; try done.
    + by rewrite length_insert.
    + intros l Hl. rewrite (insert_kind seen d l _ _ Hu) by done.
      subst seen. by rewrite seen_old.
    + intros u' [= ->]. split; [done|].
      apply list_lookup_insert_eq. by eapply lookup_lt_Some.
Qed.

(** C5: the task of a [DiagnosedPublisher] is named after the topic name of
    the publisher it wraps, read when the instance is constructed, and keeps
    that name through every later call on the instance. *)
Theorem DiagnosedPublisher_named_after_topic
    (w : World) (pub d : loc)
    (fp : FrequencyStatusParam) (sp : TimeStampStatusParam)
    (u : Updater) (p : Publisher) (ops : list Op) :
  heap w !! d = Some (OUpdater u) ->
  heap w !! pub = Some (OPublisher p) ->
  let self := length (heap w) in
  let w' := fst (new_DiagnosedPublisher pub d fp sp w) in
  task_name (heap w') self = Some (Publisher_topic_name p ++ " topic status")%string /\
  task_name (heap (run_ops self ops w')) self =
    Some (Publisher_topic_name p ++ " topic status")%string.
Proof.
  intros Hd Hp self w'.
  assert (Hn : exists c, heap w' !! self = Some (OComposite c) /\
                 name c = Some (Publisher_topic_name p ++ " topic status")%string).
  { subst w'. rewrite (new_DiagnosedPublisher_run w pub d fp sp u p Hd Hp).
    destruct (Updater_add u _ _) as [e|u1]; simpl.
    - eexists. split; [apply seen_self|done].
    - eexists. split; [apply built_self|done]. }
  destruct Hn as (c & Hc & Hname).
  split.
  - unfold task_name. by rewrite Hc.
  - destruct (steady_run_ops self ops w') as (_ & _ & Hkeep & _).
    unfold task_name. by rewrite (Hkeep self c Hc).
Qed.


(** C7: a constructed [TopicDiagnostic] or [DiagnosedPublisher] has two
    children, the frequency monitor and the timestamp monitor it created,
    which are also its [freq] and [stamp] attributes; no run of calls on the
    instance changes that. *)
Theorem TopicDiagnostic_owns_its_two_monitors
    (w : World) (nm : string) (d : loc)
    (fp : FrequencyStatusParam) (sp : TimeStampStatusParam)
    (u : Updater) (ops : list Op) :
  heap w !! d = Some (OUpdater u) ->
  let self := length (heap w) in
  let good (r : World * (Exception + loc)) :=
    snd r = inr self ->
    let hp := heap (run_ops self ops (fst r)) in
    owns hp self (S self) (S (S self)) /\
    child_kinds hp self = Some [Some KFrequencyStatus; Some KTimeStampStatus] in
  good (new_TopicDiagnostic nm d fp sp w) /\
  (forall (pub : loc) (p : Publisher),
     heap w !! pub = Some (OPublisher p) ->
     good (new_DiagnosedPublisher pub d fp sp w)).
Proof.
  intros Hd self good. subst good. cbv beta.
  rewrite (new_TopicDiagnostic_run w nm d fp sp u Hd).
  split.
  - destruct (Updater_add u _ _) as [e|u1]; simpl; [done|]. intros _.
    assert (Ho : owns (heap (run_ops self ops
                   (mkWorld (built (heap w) (clock w) nm d fp sp u1 None) (clock w)
                      (trace w ++ [EvAdd d (length (heap w))
                         (at_registration (heap w) (clock w) nm d fp)]))))
                   self (S self) (S (S self))).
    { eapply owns_steady; [apply steady_run_ops|]. apply built_owns. }
    split; [exact Ho | by eapply owns_child_kinds].
  - intros pub p Hp.
    rewrite (new_DiagnosedPublisher_run w pub d fp sp u p Hd Hp).
    destruct (Updater_add u _ _) as [e|u1]; simpl; [done|]. intros _.
    assert (Ho : owns (heap (run_ops self ops
                   (mkWorld (built (heap w) (clock w) (Publisher_topic_name p) d fp sp
                               u1 (Some pub)) (clock w)
                      (trace w ++ [EvAdd d (length (heap w))
                         (at_registration (heap w) (clock w)
                            (Publisher_topic_name p) d fp)]))))
                   self (S self) (S (S self))).
    { eapply owns_steady; [apply steady_run_ops|]. apply built_owns. }
    split; [exact Ho | by eapply owns_child_kinds].
Qed.

(** C8: on an instance, [clear_window] makes one call, the frequency
    monitor's [clear], and changes that monitor only: every other object,
    so the timestamp monitor, the child list of the task and every updater,
    is as before, and no registration is made. *)
Theorem clear_window_frame
    (w : World) (self f : loc) (c : Composite) (fst0 : FrequencyStatus) :
  heap w !! self = Some (OComposite c) -> freq c = Some f ->
  heap w !! f = Some (OFrequencyStatus fst0) ->
  let w' := fst (clear_window self w) in
  snd (clear_window self w) = inr tt /\
  trace w' = trace w ++ [EvFreqClear f] /\
  heap w' !! f = Some (OFrequencyStatus (FrequencyStatus_clear (clock w) fst0)) /\
  (forall l, l <> f -> heap w' !! l = heap w !! l) /\
  children (heap w') self = children (heap w) self /\
  (forall s st, heap w !! s = Some (OTimeStampStatus st) ->
                heap w' !! s = Some (OTimeStampStatus st)) /\
  (forall d u, heap w !! d = Some (OUpdater u) ->
               heap w' !! d = Some (OUpdater u)) /\
  registrations (trace w') = registrations (trace w).
Proof.
  intros Hself Hfreq Hf. cbv zeta.
  rewrite (clear_window_run w self f c fst0 Hself Hfreq Hf).
  cbn [fst snd heap trace].
  assert (Hother : forall l, l <> f ->
            <[f := OFrequencyStatus (FrequencyStatus_clear (clock w) fst0)]> (heap w) !! l
            = heap w !! l).
  { intros l Hl. by apply list_lookup_insert_ne. }
  split_and!; try done.
  - apply list_lookup_insert_eq. by eapply lookup_lt_Some.
  - unfold children. rewrite Hother; [done|]. congruence.
  - intros s st Hs. rewrite Hother; [done|]. congruence.
  - intros d u Hd. rewrite Hother; [done|]. congruence.
  - rewrite registrations_app. simpl. lia.
Qed.

(** C9: when the updater's [add] raises, each of the three constructors
    raises the same exception.  The call was entered once, the task and its
    frequency monitor stay in the store as they were handed to the updater,
    and nothing after the call was run. *)
Theorem registration_failure_propagates
    (w : World) (d : loc)
    (fp : FrequencyStatusParam) (sp : TimeStampStatusParam) (u : Updater) :
  heap w !! d = Some (OUpdater u) ->
  let self := length (heap w) in
  let seen (nm : string) := at_registration (heap w) (clock w) nm d fp in
  let failed (nm : string) (e : Exception) : World * (Exception + loc) :=
    (mkWorld (seen nm) (clock w) (trace w ++ [EvAdd d self (seen nm)]), inl e) in
  (forall (nm : string) (e : Exception),
     Updater_add u (seen nm) self = inl e ->
     new_HeaderlessTopicDiagnostic nm d fp w = failed nm e /\
     new_TopicDiagnostic nm d fp sp w = failed nm e) /\
  (forall (pub : loc) (p : Publisher) (e : Exception),
     heap w !! pub = Some (OPublisher p) ->
     Updater_add u (seen (Publisher_topic_name p)) self = inl e ->
     new_DiagnosedPublisher pub d fp sp w = failed (Publisher_topic_name p) e).
Proof.
  intros Hd. cbv zeta. split.
  - intros nm e Hadd.
    rewrite (new_HeaderlessTopicDiagnostic_run w nm d fp u Hd).
    rewrite (new_TopicDiagnostic_run w nm d fp sp u Hd).
    cbv zeta. by rewrite Hadd.
  - intros pub p e Hp Hadd.
    rewrite (new_DiagnosedPublisher_run w pub d fp sp u p Hd Hp).
    cbv zeta. by rewrite Hadd.
Qed.

(** C10: a [TopicDiagnostic] or a [DiagnosedPublisher] is registered before
    its timestamp monitor is attached.  The store the updater's [add] works
    on has the task with the frequency monitor as only child, no [stamp]
    attribute and no object that the store did not have before besides that
    task and that monitor; the outcome of the constructor is the outcome of
    [add] on that store, and the timestamp monitor is a child only after. *)
Theorem registered_before_stamp_attached
    (w : World) (nm : string) (d : loc)
    (fp : FrequencyStatusParam) (sp : TimeStampStatusParam) (u : Updater) :
  heap w !! d = Some (OUpdater u) ->
  let self := length (heap w) in
  let seen (n : string) := at_registration (heap w) (clock w) n d fp in
  let late (n : string) (r : World * (Exception + loc)) :=
    trace (fst r) = trace w ++ [EvAdd d self (seen n)] /\
    (forall e, Updater_add u (seen n) self = inl e -> snd r = inl e) /\
    (forall u', Updater_add u (seen n) self = inr u' ->
       snd r = inr self /\
       heap (fst r) !! d = Some (OUpdater u') /\
       child_kinds (heap (fst r)) self =
         Some [Some KFrequencyStatus; Some KTimeStampStatus]) in
  child_kinds (seen nm) self = Some [Some KFrequencyStatus] /\
  (exists c, seen nm !! self = Some (OComposite c) /\ stamp c = None) /\
  length (seen nm) = length (heap w) + 2 /\
  late nm (new_TopicDiagnostic nm d fp sp w) /\
  (forall (pub : loc) (p : Publisher),
     heap w !! pub = Some (OPublisher p) ->
     late (Publisher_topic_name p) (new_DiagnosedPublisher pub d fp sp w)).
Proof.
  intros Hd. cbv zeta.
  rewrite (new_TopicDiagnostic_run w nm d fp sp u Hd). cbv zeta.
  pose proof (seen_self (heap w) (clock w) nm d fp) as Hself.
  pose proof (seen_freq (heap w) (clock w) nm d fp) as Hf.
  pose proof (seen_length (heap w) (clock w) nm d fp) as Hlen.
  split_and!.
  - unfold child_kinds, children. rewrite Hself. cbn [tasks map].
    by rewrite Hf.
  - eexists. split; [exact Hself|done].
  - exact Hlen.
  - destruct (Updater_add u _ _) as [e|u1]; by cbn [fst trace].
  - intros e He. by rewrite He.
  - intros u' Hu'. rewrite Hu'. cbn [fst snd heap]. split_and!; [done| |].
    + by eapply built_updater.
    + eapply owns_child_kinds, built_owns.
  - intros pub p Hp.
    rewrite (new_DiagnosedPublisher_run w pub d fp sp u p Hd Hp). cbv zeta.
    split_and!.
    + destruct (Updater_add u _ _) as [e|u1]; by cbn [fst trace].
    + intros e He. by rewrite He.
    + intros u' Hu'. rewrite Hu'. cbn [fst snd heap]. split_and!; [done| |].
      * by eapply built_updater.
      * eapply owns_child_kinds, built_owns.
Qed.

(** The constructor up to the registration, whatever [d] holds. *)
Lemma HeaderlessTopicDiagnostic_init_upto
    (h : list Obj) (t : float) (tr : list Event)
    (nm : string) (d : loc) (fp : FrequencyStatusParam) :
  HeaderlessTopicDiagnostic_init (length h) nm d fp
    (mkWorld (h ++ [OComposite blank]) t tr) =
  call_Updater_add d (length h) (mkWorld (at_registration h t nm d fp) t tr).
Proof.
  unfold HeaderlessTopicDiagnostic_init, CompositeDiagnosticTask_init, addTask,
    at_registration.
  by run.
Qed.

End Properties.

(** * Further properties *)

Section Runs.
Context `{Collaborators}.

(** ** Objects by class *)

Lemma kind_frequency (o : option Obj) :
  kind_of o = Some KFrequencyStatus -> exists st, o = Some (OFrequencyStatus st).
Proof. destruct o as [[]|]; try done. intros _. by eexists. Qed.

Lemma kind_timestamp (o : option Obj) :
  kind_of o = Some KTimeStampStatus -> exists st, o = Some (OTimeStampStatus st).
Proof. destruct o as [[]|]; try done. intros _. by eexists. Qed.

Lemma kind_publisher (o : option Obj) :
  kind_of o = Some KPublisher -> exists pb, o = Some (OPublisher pb).
Proof. destruct o as [[]|]; try done. intros _. by eexists. Qed.

Lemma wired_steady (w w' : World) (self f s p : loc) :
  steady w w' -> wired (heap w) self f s p -> wired (heap w') self f s p.
Proof.
  intros (_ & Hk & Hc & _) ((c & Hself & Hrest) & Hf & Hs & Hp).
  split; [|by rewrite !Hk].
  exists c. split; [by apply Hc | exact Hrest].
Qed.

(** ** Publishing in closed form *)

Lemma publish_no_time (w : World) (self : loc) (message : PyVal) (e : Exception) :
  stamp_seconds message = inl e -> publish self message w = (w, inl e).
Proof. intros Hs. unfold publish, bind. by rewrite Hs. Qed.

Lemma publish_run
    (w : World) (self f s p : loc) (c : Composite)
    (fst0 : FrequencyStatus) (sst : TimeStampStatus) (pb : Publisher)
    (message : PyVal) (x : float) :
  heap w !! self = Some (OComposite c) ->
  freq c = Some f -> stamp c = Some s -> publisher c = Some p ->
  heap w !! f = Some (OFrequencyStatus fst0) ->
  heap w !! s = Some (OTimeStampStatus sst) ->
  heap w !! p = Some (OPublisher pb) ->
  stamp_seconds message = inr x ->
  let ticked :=
    <[f := OFrequencyStatus (FrequencyStatus_tick (clock w) fst0)]>
      (<[s := OTimeStampStatus (TimeStampStatus_tick (clock w) x sst)]> (heap w)) in
  let tr := trace w ++ [EvStampTick s x; EvFreqTick f; EvPublish p message] in
  ticked !! p = Some (OPublisher pb) /\
  publish self message w =
    match Publisher_publish pb message with
    | inl e => (mkWorld ticked (clock w) tr, inl e)
    | inr pb' => (mkWorld (<[p := OPublisher pb']> ticked) (clock w) tr, inr tt)
    end.
Proof.
  intros Hself Hfreq Hstamp Hpub Hf Hs Hp Hx. cbv zeta.
  pose proof (ticked_other (heap w) f s self _ _
                (OFrequencyStatus (FrequencyStatus_tick (clock w) fst0))
                (OTimeStampStatus (TimeStampStatus_tick (clock w) x sst))
                _ Hf Hs Hself) as Hself'.
  pose proof (ticked_other (heap w) f s p _ _
                (OFrequencyStatus (FrequencyStatus_tick (clock w) fst0))
                (OTimeStampStatus (TimeStampStatus_tick (clock w) x sst))
                _ Hf Hs Hp) as Hp'.
  simpl in Hself', Hp'.
  specialize (Hself' ltac:(congruence) ltac:(congruence)).
  specialize (Hp' ltac:(congruence) ltac:(congruence)).
  split; [exact Hp'|].
  unfold publish. unfold bind at 1. rewrite Hx. simpl.
  unfold bind at 1.
  rewrite (TopicDiagnostic_tick_run w self f s c fst0 sst x Hself Hfreq Hstamp Hf Hs).
  unfold bind at 1. erewrite rd_run; [ | exact Hself' | exact Hpub ].
  unfold call_Publisher_publish. simpl. rewrite Hp'.
  unfold bind, log, lift, store, raise, ret. simpl.
  destruct (Publisher_publish pb message) as [e|pb']; simpl;
    by rewrite <- app_assoc.
Qed.

(** ** The trace of a run *)

Lemma exec_trace (w : World) (self f s p : loc) (o : Op) :
  wired (heap w) self f s p ->
  trace (fst (exec self o w)) = trace w ++ calls f s p o.
Proof.
  intros ((c & Hself & Hfreq & Hstamp & Hpub) & Hf & Hs & Hp).
  apply kind_frequency in Hf as (fst0 & Hf).
  apply kind_timestamp in Hs as (sst & Hs).
  apply kind_publisher in Hp as (pb & Hp).
  destruct o as [|x| |message]; simpl.
  - by rewrite (HeaderlessTopicDiagnostic_tick_run w self f c fst0 Hself Hfreq Hf).
  - by rewrite (TopicDiagnostic_tick_run w self f s c fst0 sst x Hself Hfreq Hstamp Hf Hs).
  - by rewrite (clear_window_run w self f c fst0 Hself Hfreq Hf).
  - destruct (stamp_seconds message) as [e|x] eqn:Hx.
    + rewrite (publish_no_time w self message e Hx). simpl. by rewrite app_nil_r.
    + destruct (publish_run w self f s p c fst0 sst pb message x
                  Hself Hfreq Hstamp Hpub Hf Hs Hp Hx) as (_ & ->).
      by destruct (Publisher_publish pb message).
Qed.

Lemma run_trace (w : World) (self f s p : loc) (ops : list Op) :
  wired (heap w) self f s p ->
  trace (run_ops self ops w) = trace w ++ flat_map (calls f s p) ops.
Proof.
  revert w. induction ops as [|o ops IH]; intros w Hw; simpl.
  - by rewrite app_nil_r.
  - rewrite IH by (eapply wired_steady; [apply quiet_exec | exact Hw]).
    rewrite (exec_trace w self f s p o Hw). by rewrite <- app_assoc.
Qed.

Lemma sent_calls (f s p : loc) (ops : list Op) :
  sent (flat_map (calls f s p) ops) = map (pair p) (forwarded ops).
Proof.
  induction ops as [|o ops IH]; simpl; [done|].
  rewrite sent_app, IH.
  destruct o as [|x| |message]; simpl; try done.
  by destruct (stamp_seconds message).
Qed.

Lemma freq_ticks_app (f : loc) (tr tr' : list Event) :
  freq_ticks f (tr ++ tr') = freq_ticks f tr + freq_ticks f tr'.
Proof.
  induction tr as [|ev tr IH]; simpl; [done|].
  destruct ev; simpl; try done.
  destruct (Nat.eqb _ f); simpl; by rewrite IH.
Qed.

Lemma stamps_app (s : loc) (tr tr' : list Event) :
  stamps s (tr ++ tr') = stamps s tr ++ stamps s tr'.
Proof.
  induction tr as [|ev tr IH]; simpl; [done|].
  destruct ev; simpl; try done.
  destruct (Nat.eqb _ s); simpl; by rewrite IH.
Qed.

(** X1: when [Time.from_msg] rejects the stamp of a message, or the
    nanoseconds it yields do not convert to a float, [publish] raises that
    exception and leaves the store and the trace as they were: the message
    is neither counted nor published. *)
Theorem publish_unusable_stamp
    (w : World) (self : loc) (message st : PyVal) (e : Exception) :
  stamp_field message = Some st ->
  Time_from_msg st = inl e \/
    (exists ns, Time_from_msg st = inr ns /\ float_of_int ns = inl e) ->
  publish self message w = (w, inl e).
Proof.
  intros Hm Hbad. apply publish_no_time.
  unfold stamp_field in Hm. unfold stamp_seconds, int_mul_float.
  destruct (getattr message "header") as [e'|hd]; [done|].
  destruct (getattr hd "stamp") as [e'|st']; [done|].
  injection Hm as ->.
  destruct Hbad as [-> | (ns & -> & ->)]; done.
Qed.

(** X2: statistics are collected before the message is published.  When
    the publisher raises on a message whose event time was computed,
    [publish] raises the same exception, yet both monitors have been ticked
    and the publisher is as it was. *)
Theorem publish_counts_rejected_message
    (w : World) (self f s p : loc) (c : Composite)
    (fst0 : FrequencyStatus) (sst : TimeStampStatus) (pb : Publisher)
    (message : PyVal) (x : float) (e : Exception) :
  heap w !! self = Some (OComposite c) ->
  freq c = Some f -> stamp c = Some s -> publisher c = Some p ->
  heap w !! f = Some (OFrequencyStatus fst0) ->
  heap w !! s = Some (OTimeStampStatus sst) ->
  heap w !! p = Some (OPublisher pb) ->
  stamp_seconds message = inr x ->
  Publisher_publish pb message = inl e ->
  let w' := fst (publish self message w) in
  snd (publish self message w) = inl e /\
  heap w' !! f = Some (OFrequencyStatus (FrequencyStatus_tick (clock w) fst0)) /\
  heap w' !! s = Some (OTimeStampStatus (TimeStampStatus_tick (clock w) x sst)) /\
  heap w' !! p = Some (OPublisher pb) /\
  trace w' = trace w ++ [EvStampTick s x; EvFreqTick f; EvPublish p message].
Proof.
  intros Hself Hfreq Hstamp Hpub Hf Hs Hp Hx He. cbv zeta.
  destruct (publish_run w self f s p c fst0 sst pb message x
              Hself Hfreq Hstamp Hpub Hf Hs Hp Hx) as (Hp' & ->).
  rewrite He. cbn [fst snd heap trace].
  assert (Hfs : f <> s) by congruence.
  split_and!; try done.
  - apply list_lookup_insert_eq. rewrite length_insert. by eapply lookup_lt_Some.
  - rewrite list_lookup_insert_ne by done.
    apply list_lookup_insert_eq. by eapply lookup_lt_Some.
Qed.

(** X3: on a task that refers to its two monitors and its publisher, the
    calls that leave the family during a run of [tick], [clear_window] and
    [publish] calls are those of each call, one after the other: a call that
    raises adds none, every other adds its own and no more. *)
Theorem run_trace_exact (w : World) (self f s p : loc) (ops : list Op) :
  wired (heap w) self f s p ->
  trace (run_ops self ops w) = trace w ++ flat_map (calls f s p) ops.
Proof. apply run_trace. Qed.

(** X4: a run of calls hands to the publisher exactly the messages whose
    event time could be computed, each once and in the order of the calls,
    whatever the publisher answers and whatever other calls come between. *)
Theorem run_forwards_in_order (w : World) (self f s p : loc) (ops : list Op) :
  wired (heap w) self f s p ->
  sent (trace (run_ops self ops w)) = sent (trace w) ++ map (pair p) (forwarded ops).
Proof.
  intros Hw. by rewrite (run_trace w self f s p ops Hw), sent_app, sent_calls.
Qed.

Lemma monitored_steady (w w' : World) (self f s : loc) :
  steady w w' -> monitored (heap w) self f s -> monitored (heap w') self f s.
Proof.
  intros (_ & Hk & Hc & _) ((c & Hself & Hrest) & Hf & Hs).
  split; [|by rewrite !Hk].
  exists c. split; [by apply Hc | exact Hrest].
Qed.

(** Handing a message to the publisher ticks no monitor. *)
Lemma send_ticks_nothing (w : World) (self f s : loc) (m : PyVal) :
  let w' := fst ((p <- rd self "publisher" publisher;;
                  call_Publisher_publish p m) w) in
  freq_ticks f (trace w') = freq_ticks f (trace w) /\
  stamps s (trace w') = stamps s (trace w).
Proof.
  cbv zeta. unfold bind, rd, call_Publisher_publish, log, lift, store, raise, ret.
  destruct (heap w !! self) as [[c| | | |]|]; simpl; try done.
  destruct (publisher c) as [p|]; simpl; try done.
  destruct (heap w !! p) as [[| | | |pb]|]; simpl; try done.
  destruct (Publisher_publish pb m) as [e|pb']; simpl;
    rewrite freq_ticks_app, stamps_app; simpl;
    by rewrite app_nil_r, Nat.add_0_r.
Qed.

Lemma exec_balanced (w : World) (self f s : loc) (o : Op) :
  monitored (heap w) self f s ->
  stamped_op o = true ->
  freq_ticks f (trace (fst (exec self o w))) + length (stamps s (trace w)) =
    freq_ticks f (trace w) + length (stamps s (trace (fst (exec self o w)))).
Proof.
  intros ((c & Hself & Hfreq & Hstamp) & Hf & Hs) Ho.
  apply kind_frequency in Hf as (fst0 & Hf).
  apply kind_timestamp in Hs as (sst & Hs).
  destruct o as [|x| |message]; simpl; [done| | |].
  - rewrite (TopicDiagnostic_tick_run w self f s c fst0 sst x Hself Hfreq Hstamp Hf Hs).
    cbn [fst trace]. rewrite freq_ticks_app, stamps_app, length_app. simpl.
    rewrite !Nat.eqb_refl. simpl. lia.
  - rewrite (clear_window_run w self f c fst0 Hself Hfreq Hf).
    cbn [fst trace]. rewrite freq_ticks_app, stamps_app, length_app. simpl. lia.
  - destruct (stamp_seconds message) as [e|x] eqn:Hx.
    + by rewrite (publish_no_time w self message e Hx).
    + set (w1 := mkWorld
                   (<[f := OFrequencyStatus (FrequencyStatus_tick (clock w) fst0)]>
                      (<[s := OTimeStampStatus (TimeStampStatus_tick (clock w) x sst)]>
                         (heap w)))
                   (clock w) (trace w ++ [EvStampTick s x; EvFreqTick f])).
      assert (Hsend : publish self message w =
                (p <- rd self "publisher" publisher;;
                 call_Publisher_publish p message) w1).
      { unfold publish. unfold bind at 1. rewrite Hx. simpl. unfold bind at 1.
        by rewrite (TopicDiagnostic_tick_run w self f s c fst0 sst x
                      Hself Hfreq Hstamp Hf Hs). }
      rewrite Hsend.
      destruct (send_ticks_nothing w1 self f s message) as (-> & ->).
      subst w1. cbn [trace].
      rewrite freq_ticks_app, stamps_app, length_app. simpl.
      rewrite !Nat.eqb_refl. simpl. lia.
Qed.

Lemma run_balanced (w : World) (self f s : loc) (ops : list Op) :
  monitored (heap w) self f s ->
  forallb stamped_op ops = true ->
  freq_ticks f (trace (run_ops self ops w)) + length (stamps s (trace w)) =
    freq_ticks f (trace w) + length (stamps s (trace (run_ops self ops w))).
Proof.
  revert w. induction ops as [|o ops IH]; intros w Hw Hops; simpl; [done|].
  simpl in Hops. apply andb_prop in Hops as [Ho Hops].
  pose proof (exec_balanced w self f s o Hw Ho) as Hstep.
  assert (Hw' : monitored (heap (fst (exec self o w))) self f s).
  { eapply monitored_steady; [apply quiet_exec | exact Hw]. }
  pose proof (IH (fst (exec self o w)) Hw' Hops) as Hrest.
  lia.
Qed.

(** X5: as long as the base class's [tick] is not called directly, a run of
    calls on a task with a frequency monitor and a timestamp monitor, be it
    a [TopicDiagnostic] or a [DiagnosedPublisher], calls [tick] on the
    frequency monitor exactly as many times as it calls [tick] on the
    timestamp monitor. *)
Theorem monitors_tick_together (w : World) (self f s : loc) (ops : list Op) :
  monitored (heap w) self f s ->
  forallb stamped_op ops = true ->
  let w' := run_ops self ops w in
  freq_ticks f (trace w') + length (stamps s (trace w)) =
    freq_ticks f (trace w) + length (stamps s (trace w')).
Proof. intros Hw Hops. cbv zeta. by apply run_balanced. Qed.

(** X6: the base class's [tick] makes one call, the frequency monitor's
    [tick], and changes that monitor only; called on a [TopicDiagnostic] it
    records no stamp. *)
Theorem HeaderlessTopicDiagnostic_tick_frame
    (w : World) (self f : loc) (c : Composite) (fst0 : FrequencyStatus) :
  heap w !! self = Some (OComposite c) -> freq c = Some f ->
  heap w !! f = Some (OFrequencyStatus fst0) ->
  let w' := fst (HeaderlessTopicDiagnostic_tick self w) in
  snd (HeaderlessTopicDiagnostic_tick self w) = inr tt /\
  trace w' = trace w ++ [EvFreqTick f] /\
  heap w' !! f = Some (OFrequencyStatus (FrequencyStatus_tick (clock w) fst0)) /\
  (forall l, l <> f -> heap w' !! l = heap w !! l) /\
  (forall s, stamps s (trace w') = stamps s (trace w)).
Proof.
  intros Hself Hfreq Hf. cbv zeta.
  rewrite (HeaderlessTopicDiagnostic_tick_run w self f c fst0 Hself Hfreq Hf).
  cbn [fst snd heap trace]. split_and!; try done.
  - apply list_lookup_insert_eq. by eapply lookup_lt_Some.
  - intros l Hl. by apply list_lookup_insert_ne.
  - intros s. rewrite stamps_app. simpl. by rewrite app_nil_r.
Qed.

(** ** What construction leaves alone *)

Lemma built_old (h : list Obj) (t : float) (nm : string) (d : loc)
    (fp : FrequencyStatusParam) (sp : TimeStampStatusParam)
    (u' : Updater) (pub : option loc) (l : loc) :
  l < length h -> l <> d -> built h t nm d fp sp u' pub !! l = h !! l.
Proof.
  intros Hl Hd. unfold built.
  rewrite lookup_app_l by (by rewrite length_insert).
  by apply list_lookup_insert_ne.
Qed.

Lemma built_kind (h : list Obj) (t : float) (nm : string) (d : loc)
    (fp : FrequencyStatusParam) (sp : TimeStampStatusParam)
    (u u' : Updater) (pub : option loc) (l : loc) :
  h !! d = Some (OUpdater u) -> l < length h ->
  kind_of (built h t nm d fp sp u' pub !! l) = kind_of (h !! l).
Proof.
  intros Hd Hl. destruct (decide (l = d)) as [->|Hne].
  - by rewrite (built_updater h t nm d fp sp u u' pub Hd), Hd.
  - by rewrite built_old.
Qed.

Lemma built_length (h : list Obj) (t : float) (nm : string) (d : loc)
    (fp : FrequencyStatusParam) (sp : TimeStampStatusParam)
    (u' : Updater) (pub : option loc) :
  length (built h t nm d fp sp u' pub) = length h + 3.
Proof. unfold built. by rewrite length_app, length_insert. Qed.

Lemma registered_old (h : list Obj) (t : float) (nm : string) (d : loc)
    (fp : FrequencyStatusParam) (u' : Updater) (l : loc) :
  l < length h -> l <> d ->
  <[d := OUpdater u']> (at_registration h t nm d fp) !! l = h !! l.
Proof.
  intros Hl Hd. rewrite list_lookup_insert_ne by done. by apply seen_old.
Qed.

(** X7: the constructors create objects and change none but the updater:
    every object the store had before, other than the updater, is the same
    after the construction, whether the registration was accepted or not. *)
Theorem construction_frame
    (w : World) (nm : string) (d : loc)
    (fp : FrequencyStatusParam) (sp : TimeStampStatusParam) (u : Updater) :
  heap w !! d = Some (OUpdater u) ->
  let kept (r : World * (Exception + loc)) :=
    forall l, l < length (heap w) -> l <> d -> heap (fst r) !! l = heap w !! l in
  kept (new_HeaderlessTopicDiagnostic nm d fp w) /\
  kept (new_TopicDiagnostic nm d fp sp w) /\
  (forall (pub : loc) (p : Publisher),
     heap w !! pub = Some (OPublisher p) ->
     kept (new_DiagnosedPublisher pub d fp sp w)).
Proof.
  intros Hd. cbv zeta.
  rewrite (new_HeaderlessTopicDiagnostic_run w nm d fp u Hd).
  rewrite (new_TopicDiagnostic_run w nm d fp sp u Hd).
  cbv zeta. split_and!.
  - destruct (Updater_add u _ _) as [e|u1]; cbn [fst heap]; intros l Hl Hne.
    + by apply seen_old.
    + by apply registered_old.
  - destruct (Updater_add u _ _) as [e|u1]; cbn [fst heap]; intros l Hl Hne.
    + by apply seen_old.
    + by apply built_old.
  - intros pub p Hp.
    rewrite (new_DiagnosedPublisher_run w pub d fp sp u p Hd Hp). cbv zeta.
    destruct (Updater_add u _ _) as [e|u1]; cbn [fst heap]; intros l Hl Hne.
    + by apply seen_old.
    + by apply built_old.
Qed.

(** ** What a call can reach *)

Lemma rd_cases {A} (w : World) (self : loc) (a : string)
    (proj : Composite -> option A) (c : Composite) :
  heap w !! self = Some (OComposite c) ->
  rd self a proj w =
    (w, match proj c with
        | Some x => inr x
        | None => inl (AttributeError a)
        end).
Proof. intros Hself. unfold rd. rewrite Hself. by destruct (proj c). Qed.

Lemma only_refl (L : list loc) (w : World) : only L w w.
Proof. by intros l _. Qed.

Lemma only_trans (L : list loc) (w1 w2 w3 : World) :
  only L w1 w2 -> only L w2 w3 -> only L w1 w3.
Proof. intros H12 H23 l Hl. by rewrite H23, H12. Qed.

Lemma only_insert (L : list loc) (w : World) (x : loc) (o : Obj) (tr : list Event) :
  x ∈ L -> only L w (mkWorld (<[x := o]> (heap w)) (clock w) tr).
Proof.
  intros Hx l Hl. simpl. apply list_lookup_insert_ne. intros ->. done.
Qed.

Lemma only_call_FrequencyStatus_tick (L : list loc) (w : World) (f : loc) :
  f ∈ L -> only L w (fst (call_FrequencyStatus_tick f w)).
Proof.
  intros Hf. unfold call_FrequencyStatus_tick.
  destruct (heap w !! f) as [[| st | | |]|]; try apply only_refl.
  unfold bind, log, store. simpl. by apply (only_insert L w).
Qed.

Lemma only_call_FrequencyStatus_clear (L : list loc) (w : World) (f : loc) :
  f ∈ L -> only L w (fst (call_FrequencyStatus_clear f w)).
Proof.
  intros Hf. unfold call_FrequencyStatus_clear.
  destruct (heap w !! f) as [[| st | | |]|]; try apply only_refl.
  unfold bind, log, store. simpl. by apply (only_insert L w).
Qed.

Lemma only_call_TimeStampStatus_tick (L : list loc) (w : World) (s : loc) (x : float) :
  s ∈ L -> only L w (fst (call_TimeStampStatus_tick s x w)).
Proof.
  intros Hs. unfold call_TimeStampStatus_tick.
  destruct (heap w !! s) as [[| | st | |]|]; try apply only_refl.
  unfold bind, log, store. simpl. by apply (only_insert L w).
Qed.

Lemma only_call_Publisher_publish (L : list loc) (w : World) (p : loc) (m : PyVal) :
  p ∈ L -> only L w (fst (call_Publisher_publish p m w)).
Proof.
  intros Hp. unfold call_Publisher_publish.
  destruct (heap w !! p) as [[| | | | pb]|]; try apply only_refl.
  unfold bind, log, lift, store, raise, ret. simpl.
  destruct (Publisher_publish pb m) as [e|pb']; simpl.
  - by intros l _.
  - by apply (only_insert L w).
Qed.

Lemma only_bind {A B} (L : list loc) (self : loc) (c : Composite)
    (m : M A) (k : A -> M B) (w : World) :
  heap w !! self = Some (OComposite c) ->
  quiet m ->
  only L w (fst (m w)) ->
  (forall a w1, heap w1 !! self = Some (OComposite c) -> only L w1 (fst (k a w1))) ->
  only L w (fst (bind m k w)).
Proof.
  intros Hself Hq Hm Hk. unfold bind.
  destruct (Hq w) as (_ & _ & Hkeep & _).
  destruct (m w) as [w1 [e|a]]; simpl in *; [done|].
  eapply only_trans; [exact Hm|]. apply Hk. by apply Hkeep.
Qed.

Lemma in_refs_freq (c : Composite) (f : loc) : freq c = Some f -> f ∈ refs c.
Proof.
  intros Hf. unfold refs. rewrite Hf. simpl. apply elem_of_cons. by left.
Qed.

Lemma in_refs_stamp (c : Composite) (s : loc) : stamp c = Some s -> s ∈ refs c.
Proof.
  intros Hs. unfold refs. rewrite Hs. rewrite !elem_of_app. right. left.
  simpl. apply elem_of_cons. by left.
Qed.

Lemma in_refs_publisher (c : Composite) (p : loc) : publisher c = Some p -> p ∈ refs c.
Proof.
  intros Hp. unfold refs. rewrite Hp. rewrite !elem_of_app. right. right.
  simpl. apply elem_of_cons. by left.
Qed.

Lemma only_HeaderlessTopicDiagnostic_tick (w : World) (self : loc) (c : Composite) :
  heap w !! self = Some (OComposite c) ->
  only (refs c) w (fst (HeaderlessTopicDiagnostic_tick self w)).
Proof.
  intros Hself. unfold HeaderlessTopicDiagnostic_tick, bind.
  rewrite (rd_cases w self "freq" freq c Hself).
  destruct (freq c) as [f|] eqn:Hf; [|apply only_refl].
  by apply only_call_FrequencyStatus_tick, in_refs_freq.
Qed.

Lemma only_clear_window (w : World) (self : loc) (c : Composite) :
  heap w !! self = Some (OComposite c) ->
  only (refs c) w (fst (clear_window self w)).
Proof.
  intros Hself. unfold clear_window, bind.
  rewrite (rd_cases w self "freq" freq c Hself).
  destruct (freq c) as [f|] eqn:Hf; [|apply only_refl].
  by apply only_call_FrequencyStatus_clear, in_refs_freq.
Qed.

Lemma only_TopicDiagnostic_tick (w : World) (self : loc) (c : Composite) (x : float) :
  heap w !! self = Some (OComposite c) ->
  only (refs c) w (fst (TopicDiagnostic_tick self x w)).
Proof.
  intros Hself. unfold TopicDiagnostic_tick. unfold bind at 1.
  rewrite (rd_cases w self "stamp" stamp c Hself).
  destruct (stamp c) as [s|] eqn:Hs; [|apply only_refl].
  eapply only_bind; [exact Hself | apply quiet_call_TimeStampStatus_tick | |].
  - by apply only_call_TimeStampStatus_tick, in_refs_stamp.
  - intros _ w1 Hself1. by apply only_HeaderlessTopicDiagnostic_tick.
Qed.

Lemma only_publish (w : World) (self : loc) (c : Composite) (m : PyVal) :
  heap w !! self = Some (OComposite c) ->
  only (refs c) w (fst (publish self m w)).
Proof.
  intros Hself. unfold publish. unfold bind at 1.
  destruct (stamp_seconds m) as [e|x]; simpl; [apply only_refl|].
  eapply only_bind; [exact Hself | apply quiet_TopicDiagnostic_tick | |].
  - by apply only_TopicDiagnostic_tick.
  - intros _ w1 Hself1. unfold bind.
    rewrite (rd_cases w1 self "publisher" publisher c Hself1).
    destruct (publisher c) as [p|] eqn:Hp; [|apply only_refl].
    by apply only_call_Publisher_publish, in_refs_publisher.
Qed.

Lemma only_run_ops (w : World) (self : loc) (c : Composite) (ops : list Op) :
  heap w !! self = Some (OComposite c) ->
  only (refs c) w (run_ops self ops w).
Proof.
  revert w. induction ops as [|o ops IH]; intros w Hself; simpl.
  - apply only_refl.
  - apply (only_trans _ w (fst (exec self o w))).
    + destruct o; simpl.
      * by apply only_HeaderlessTopicDiagnostic_tick.
      * by apply only_TopicDiagnostic_tick.
      * by apply only_clear_window.
      * by apply only_publish.
    + apply IH. destruct (quiet_exec self o w) as (_ & _ & Hkeep & _).
      by apply Hkeep.
Qed.

(** X8: a run of calls on a task changes no object other than those the
    task refers to through [freq], [stamp] and [publisher]; the task itself,
    the updater and every other task and monitor are as before. *)
Theorem calls_are_local
    (w : World) (self : loc) (c : Composite) (ops : list Op) (l : loc) :
  heap w !! self = Some (OComposite c) ->
  l ∉ refs c ->
  heap (run_ops self ops w) !! l = heap w !! l.
Proof. intros Hself Hl. by apply (only_run_ops w self c ops Hself). Qed.

(** ** Two instances *)

Lemma owns_built_old (h : list Obj) (t : float) (nm : string) (d : loc)
    (fp : FrequencyStatusParam) (sp : TimeStampStatusParam)
    (u u' : Updater) (pub : option loc) (self f s : loc) :
  h !! d = Some (OUpdater u) ->
  owns h self f s -> owns (built h t nm d fp sp u' pub) self f s.
Proof.
  intros Hd ((c & Hself & Hrest) & Hf & Hs).
  assert (Hlt : forall l k, kind_of (h !! l) = Some k -> l < length h).
  { intros l k Hk. destruct (h !! l) as [o|] eqn:Hl; [|done].
    by eapply lookup_lt_Some. }
  split; [|split].
  - exists c. split; [|exact Hrest].
    rewrite built_old; [done | by eapply lookup_lt_Some | congruence].
  - rewrite (built_kind h t nm d fp sp u u' pub f Hd); [done|]. by eapply Hlt.
  - rewrite (built_kind h t nm d fp sp u u' pub s Hd); [done|]. by eapply Hlt.
Qed.

(** X9: two [TopicDiagnostic]s built one after the other on the same
    updater share nothing: each has its own two monitors, and a run of calls
    on the one leaves the task and the monitors of the other as they were. *)
Theorem instances_independent
    (w : World) (nm1 nm2 : string) (d : loc)
    (fp1 fp2 : FrequencyStatusParam) (sp1 sp2 : TimeStampStatusParam)
    (u : Updater) (ops : list Op) :
  heap w !! d = Some (OUpdater u) ->
  let a := length (heap w) in
  let b := length (heap w) + 3 in
  let r1 := new_TopicDiagnostic nm1 d fp1 sp1 w in
  let r2 := new_TopicDiagnostic nm2 d fp2 sp2 (fst r1) in
  snd r1 = inr a -> snd r2 = inr b ->
  owns (heap (fst r2)) a (S a) (S (S a)) /\
  owns (heap (fst r2)) b (S b) (S (S b)) /\
  (forall l, l ∈ [a; S a; S (S a)] ->
     heap (run_ops b ops (fst r2)) !! l = heap (fst r2) !! l) /\
  (forall l, l ∈ [b; S b; S (S b)] ->
     heap (run_ops a ops (fst r2)) !! l = heap (fst r2) !! l).
Proof.
  intros Hd. cbv zeta.
  rewrite (new_TopicDiagnostic_run w nm1 d fp1 sp1 u Hd). cbv zeta.
  destruct (Updater_add u _ _) as [e|u1]; cbn [fst snd]; [done|]. intros _.
  set (h1 := built (heap w) (clock w) nm1 d fp1 sp1 u1 None).
  set (tr1 := trace w ++ _).
  assert (Hd1 : heap (mkWorld h1 (clock w) tr1) !! d = Some (OUpdater u1)).
  { simpl. by eapply built_updater. }
  assert (Hlen : length h1 = length (heap w) + 3) by apply built_length.
  rewrite (new_TopicDiagnostic_run (mkWorld h1 (clock w) tr1) nm2 d fp2 sp2 u1 Hd1).
  cbv zeta. cbn [heap clock trace].
  destruct (Updater_add u1 _ _) as [e|u2]; cbn [fst snd heap]; [done|]. intros _.
  set (h2 := built h1 (clock w) nm2 d fp2 sp2 u2 None).
  assert (Ha : owns h2 (length (heap w)) (S (length (heap w))) (S (S (length (heap w))))).
  { eapply owns_built_old; [exact Hd1|]. apply built_owns. }
  assert (Hb : owns h2 (length (heap w) + 3) (S (length (heap w) + 3))
                 (S (S (length (heap w) + 3)))).
  { rewrite <- Hlen. apply built_owns. }
  split; [exact Ha|]. split; [exact Hb|].
  destruct Ha as ((ca & Hca & _ & Hfa & Hsa) & _).
  destruct Hb as ((cb & Hcb & _ & Hfb & Hsb) & _).
  assert (Hpa : publisher ca = None).
  { pose proof (built_self (heap w) (clock w) nm1 d fp1 sp1 u1 None) as Hself.
    fold h1 in Hself.
    assert (Hold : h2 !! length (heap w) = h1 !! length (heap w)).
    { apply built_old; [lia|]. apply lookup_lt_Some in Hd. lia. }
    rewrite Hold, Hself in Hca. by injection Hca as <-. }
  assert (Hpb : publisher cb = None).
  { pose proof (built_self h1 (clock w) nm2 d fp2 sp2 u2 None) as Hself.
    fold h2 in Hself. rewrite Hlen, Hcb in Hself. by injection Hself as ->. }
  split.
  - intros l Hl.
    apply (only_run_ops (mkWorld h2 (clock w) _) (length (heap w) + 3) cb ops Hcb).
    unfold refs. rewrite Hfb, Hsb, Hpb. simpl.
    rewrite !elem_of_cons, elem_of_nil in Hl.
    rewrite !not_elem_of_cons. split_and!; [lia | lia | apply not_elem_of_nil].
  - intros l Hl.
    apply (only_run_ops (mkWorld h2 (clock w) _) (length (heap w)) ca ops Hca).
    unfold refs. rewrite Hfa, Hsa, Hpa. simpl.
    rewrite !elem_of_cons, elem_of_nil in Hl.
    rewrite !not_elem_of_cons. split_and!; [lia | lia | apply not_elem_of_nil].
Qed.

(** ** From construction to publication *)

Lemma built_wired (h : list Obj) (t : float) (nm : string) (d pub : loc)
    (fp : FrequencyStatusParam) (sp : TimeStampStatusParam)
    (u u' : Updater) (p : Publisher) :
  h !! d = Some (OUpdater u) -> h !! pub = Some (OPublisher p) ->
  wired (built h t nm d fp sp u' (Some pub))
        (length h) (S (length h)) (S (S (length h))) pub.
Proof.
  intros Hd Hp. split; [|split_and!].
  - eexists. split; [apply built_self|]. by simpl.
  - by rewrite built_freq.
  - by rewrite built_stamp.
  - rewrite (built_kind h t nm d fp sp u u' (Some pub) pub Hd).
    + by rewrite Hp.
    + by eapply lookup_lt_Some.
Qed.

(** X10: a [DiagnosedPublisher] publishes on the publisher it was built
    around.  After a successful construction the trace of any run of calls
    on the instance is the registration followed by the calls of the run,
    made on the two monitors created with the instance and on that
    publisher. *)
Theorem DiagnosedPublisher_runs_on_its_publisher
    (w : World) (pub d : loc)
    (fp : FrequencyStatusParam) (sp : TimeStampStatusParam)
    (u : Updater) (p : Publisher) (ops : list Op) :
  heap w !! d = Some (OUpdater u) ->
  heap w !! pub = Some (OPublisher p) ->
  let self := length (heap w) in
  let r := new_DiagnosedPublisher pub d fp sp w in
  snd r = inr self ->
  wired (heap (fst r)) self (S self) (S (S self)) pub /\
  trace (run_ops self ops (fst r)) =
    trace w ++
    EvAdd d self (at_registration (heap w) (clock w) (Publisher_topic_name p) d fp)
    :: flat_map (calls (S self) (S (S self)) pub) ops /\
  sent (trace (run_ops self ops (fst r))) =
    sent (trace w) ++ map (pair pub) (forwarded ops).
Proof.
  intros Hd Hp. cbv zeta.
  rewrite (new_DiagnosedPublisher_run w pub d fp sp u p Hd Hp). cbv zeta.
  destruct (Updater_add u _ _) as [e|u1]; cbn [fst snd]; [done|]. intros _.
  pose proof (built_wired (heap w) (clock w) (Publisher_topic_name p) d pub
                fp sp u u1 p Hd Hp) as Hw.
  split; [exact Hw|].
  rewrite (run_trace (mkWorld _ _ _) _ _ _ _ ops Hw). cbn [trace].
  split; [by rewrite <- app_assoc|].
  rewrite !sent_app, sent_calls. simpl. by rewrite app_nil_r.
Qed.

(** ** Collaborators of the wrong class *)

Lemma lookup_fresh_kind (h : list Obj) (fresh : list Obj) (l : loc) (k : Kind) :
  kind_of (h !! l) <> Some k ->
  (forall i, kind_of (fresh !! i) <> Some k) ->
  kind_of ((h ++ fresh) !! l) <> Some k.
Proof.
  intros Hold Hnew. destruct (decide (l < length h)) as [Hl|Hl].
  - by rewrite lookup_app_l.
  - rewrite lookup_app_r by lia. apply Hnew.
Qed.

(** X11: a [DiagnosedPublisher] cannot be built around an object that is
    not a publisher: reading its topic name raises [AttributeError] before
    any monitor is created and before the updater is called. *)
Theorem DiagnosedPublisher_needs_a_publisher
    (w : World) (pub d : loc)
    (fp : FrequencyStatusParam) (sp : TimeStampStatusParam) :
  kind_of (heap w !! pub) <> Some KPublisher ->
  new_DiagnosedPublisher pub d fp sp w =
    (mkWorld (heap w ++ [OComposite blank]) (clock w) (trace w),
     inl (AttributeError "topic_name")).
Proof.
  intros Hpub. destruct w as [h t tr]. simpl in *.
  assert (Hk : kind_of ((h ++ [OComposite blank]) !! pub) <> Some KPublisher).
  { apply lookup_fresh_kind; [exact Hpub|]. by intros [|[|i]]. }
  unfold new_DiagnosedPublisher, DiagnosedPublisher_init.
  unfold bind at 1. unfold alloc at 1. simpl.
  unfold bind at 1. unfold bind at 1. unfold bind at 1.
  unfold get_topic_name. simpl.
  destruct ((h ++ [OComposite blank]) !! pub) as [[| | | |pb]|]; try done.
Qed.

(** X12: when the object given as updater is not one, the constructors
    raise [AttributeError] at the registration: the task and its frequency
    monitor have been built, no registration is made, and for a
    [TopicDiagnostic] no timestamp monitor is created. *)
Theorem construction_needs_an_updater
    (w : World) (nm : string) (d : loc)
    (fp : FrequencyStatusParam) (sp : TimeStampStatusParam) :
  kind_of (heap w !! d) <> Some KUpdater ->
  let failed : World * (Exception + loc) :=
    (mkWorld (at_registration (heap w) (clock w) nm d fp) (clock w) (trace w),
     inl (AttributeError "add")) in
  new_HeaderlessTopicDiagnostic nm d fp w = failed /\
  new_TopicDiagnostic nm d fp sp w = failed.
Proof.
  intros Hd. destruct w as [h t tr]. simpl in *.
  assert (Hk : kind_of (at_registration h t nm d fp !! d) <> Some KUpdater).
  { apply lookup_fresh_kind; [exact Hd|]. by intros [|[|[|i]]]. }
  assert (Hadd : call_Updater_add d (length h)
                   (mkWorld (at_registration h t nm d fp) t tr) =
                 (mkWorld (at_registration h t nm d fp) t tr,
                  inl (AttributeError "add"))).
  { unfold call_Updater_add. simpl.
    destruct (at_registration h t nm d fp !! d) as [[| | |u|]|]; try done. }
  split.
  - unfold new_HeaderlessTopicDiagnostic.
    unfold bind at 1. unfold alloc at 1. simpl. unfold bind at 1.
    by rewrite HeaderlessTopicDiagnostic_init_upto, Hadd.
  - unfold new_TopicDiagnostic, TopicDiagnostic_init.
    unfold bind at 1. unfold alloc at 1. simpl.
    unfold bind at 1. unfold bind at 1.
    by rewrite HeaderlessTopicDiagnostic_init_upto, Hadd.
Qed.

End Runs.

(** * The properties on the concrete collaborators *)

#[local] Existing Instance Demo.carriers.
#[local] Existing Instance Demo.collaborators.

Lemma publish_missing_timestamp_witness :
  stamp_field Demo.headerless = None /\
  exists e,
    MissingTimestampField e /\
    publish 3 Demo.headerless Demo.world1 = (Demo.world1, inl e) /\
    sent (trace (fst (publish 3 Demo.headerless Demo.world1))) = sent (trace Demo.world1).
Proof.
  split; [reflexivity|].
  apply (publish_missing_timestamp Demo.world1 3 Demo.headerless).
  reflexivity.
Defined.

Lemma publish_well_formed_witness :
  (heap Demo.world1 !! 3 = Some (OComposite Demo.task1) /\
   heap Demo.world1 !! 4 = Some (OFrequencyStatus (Demo.fm_init 100 Demo.freq_cfg)) /\
   heap Demo.world1 !! 5 = Some (OTimeStampStatus (Demo.tm_init 100 Demo.stamp_cfg)) /\
   heap Demo.world1 !! 1 = Some (OPublisher Demo.channel1) /\
   stamp_field Demo.stamped =
     Some (PyObj [("sec", PyInt 99); ("nanosec", PyInt 500000000)]) /\
   Time_from_msg (PyObj [("sec", PyInt 99); ("nanosec", PyInt 500000000)]) =
     inr 99500000000%Z /\
   is_infinity (SF2Prim (binary_normalize prec emax 99500000000 0 false)) = false /\
   (SF2Prim (binary_normalize prec emax 99500000000 0 false) * 1e-9)%float =
     99.5%float) /\
  let w' := fst (publish 3 Demo.stamped Demo.world1) in
  trace w' =
    trace Demo.world1 ++ [EvStampTick 5 99.5%float; EvFreqTick 4; EvPublish 1 Demo.stamped] /\
  snd (publish 3 Demo.stamped Demo.world1) = inr tt /\
  heap w' !! 1 = Some (OPublisher (Demo.mkChannel "/scan" true [Demo.stamped])) /\
  heap w' !! 4 =
    Some (OFrequencyStatus (Demo.fm_tick 100 (Demo.fm_init 100 Demo.freq_cfg))) /\
  heap w' !! 5 =
    Some (OTimeStampStatus (Demo.tm_tick 100 99.5%float
                              (Demo.tm_init 100 Demo.stamp_cfg))).
Proof.
  split; [by vm_compute|].
  destruct (@publish_well_formed Demo.carriers Demo.collaborators
              Demo.world1 3 4 5 1 Demo.task1
              (Demo.fm_init 100 Demo.freq_cfg) (Demo.tm_init 100 Demo.stamp_cfg)
              Demo.channel1 Demo.stamped
              (PyObj [("sec", PyInt 99); ("nanosec", PyInt 500000000)])
              99500000000%Z)
    as (_ & _ & _ & Hf & Hs & _ & Hacc & Htrace & _ & Hout);
    try (vm_compute; reflexivity).
  destruct (Hacc (Demo.mkChannel "/scan" true [Demo.stamped]) eq_refl)
    as (Hp' & Hf' & Hs').
  cbv zeta. split_and!.
  - exact Htrace.
  - exact Hout.
  - exact Hp'.
  - rewrite Hf'. exact Hf.
  - rewrite Hs'. exact Hs.
Defined.

Lemma TopicDiagnostic_tick_stamp_first_witness :
  (heap Demo.world1 !! 3 = Some (OComposite Demo.task1) /\
   heap Demo.world1 !! 4 = Some (OFrequencyStatus (Demo.fm_init 100 Demo.freq_cfg)) /\
   heap Demo.world1 !! 5 = Some (OTimeStampStatus (Demo.tm_init 100 Demo.stamp_cfg))) /\
  exists w1,
    call_TimeStampStatus_tick 5 99.5%float Demo.world1 = (w1, inr tt) /\
    heap w1 !! 4 = Some (OFrequencyStatus (Demo.fm_init 100 Demo.freq_cfg)) /\
    TopicDiagnostic_tick 3 99.5%float Demo.world1 = call_FrequencyStatus_tick 4 w1 /\
    trace (fst (TopicDiagnostic_tick 3 99.5%float Demo.world1)) =
      trace Demo.world1 ++ [EvStampTick 5 99.5%float; EvFreqTick 4].
Proof.
  split; [by vm_compute|].
  destruct (TopicDiagnostic_tick_stamp_first Demo.world1 3 4 5 Demo.task1
              (Demo.fm_init 100 Demo.freq_cfg) (Demo.tm_init 100 Demo.stamp_cfg)
              99.5%float)
    as (w1 & Hstamp & _ & Hfreq & _ & Htick & Htrace & _);
    try (vm_compute; reflexivity).
  exists w1. split_and!; assumption.
Defined.

Lemma HeaderlessTopicDiagnostic_construction_witness :
  heap Demo.world0 !! 0 = Some (OUpdater (Demo.mkRegistry true [])) /\
  let w' := fst (new_HeaderlessTopicDiagnostic "/imu" 0 Demo.freq_cfg Demo.world0) in
  task_name (heap w') 3 = Some "/imu topic status" /\
  children (heap w') 3 = Some [4] /\
  heap w' !! 4 = Some (OFrequencyStatus (Demo.fm_init 100 Demo.freq_cfg)) /\
  length (heap w') = 5 /\
  trace w' =
    [EvAdd 0 3 (at_registration (heap Demo.world0) 100 "/imu" 0 Demo.freq_cfg)].
Proof.
  split; [reflexivity|].
  destruct (HeaderlessTopicDiagnostic_construction Demo.world0 "/imu" 0 Demo.freq_cfg
              (Demo.mkRegistry true []) eq_refl)
    as (Hname & Hchildren & Hfreq & Hlen & _ & Htrace & _).
  split_and!; assumption.
Defined.

Lemma DiagnosedPublisher_named_after_topic_witness :
  (heap Demo.world0 !! 0 = Some (OUpdater (Demo.mkRegistry true [])) /\
   heap Demo.world0 !! 1 = Some (OPublisher Demo.channel1)) /\
  task_name (heap Demo.world1) 3 = Some "/scan topic status" /\
  task_name (heap (run_ops 3 [OpPublish Demo.stamped; OpClearWindow] Demo.world1)) 3 =
    Some "/scan topic status".
Proof.
  split; [by split|].
  exact (DiagnosedPublisher_named_after_topic Demo.world0 1 0 Demo.freq_cfg
           Demo.stamp_cfg (Demo.mkRegistry true []) Demo.channel1
           [OpPublish Demo.stamped; OpClearWindow] eq_refl eq_refl).
Defined.


Lemma TopicDiagnostic_owns_its_two_monitors_witness :
  (heap Demo.bare !! 0 = Some (OUpdater (Demo.mkRegistry true [])) /\
   snd (new_TopicDiagnostic "/imu" 0 Demo.freq_cfg Demo.stamp_cfg Demo.bare) = inr 2 /\
   heap Demo.world0 !! 0 = Some (OUpdater (Demo.mkRegistry true [])) /\
   heap Demo.world0 !! 1 = Some (OPublisher Demo.channel1) /\
   snd (new_DiagnosedPublisher 1 0 Demo.freq_cfg Demo.stamp_cfg Demo.world0) = inr 3) /\
  owns (heap (run_ops 2 [OpTick 99.5%float; OpClearWindow] Demo.bare1)) 2 3 4 /\
  owns (heap (run_ops 3 [OpTick 99.5%float; OpClearWindow] Demo.world1)) 3 4 5.
Proof.
  split; [by vm_compute|].
  destruct (@TopicDiagnostic_owns_its_two_monitors Demo.carriers Demo.collaborators
              Demo.bare "/imu" 0 Demo.freq_cfg Demo.stamp_cfg
              (Demo.mkRegistry true []) [OpTick 99.5%float; OpClearWindow] eq_refl)
    as (Htopic & _).
  destruct (@TopicDiagnostic_owns_its_two_monitors Demo.carriers Demo.collaborators
              Demo.world0 "/imu" 0 Demo.freq_cfg Demo.stamp_cfg
              (Demo.mkRegistry true []) [OpTick 99.5%float; OpClearWindow] eq_refl)
    as (_ & Hpublisher).
  split.
  - apply Htopic. reflexivity.
  - apply (Hpublisher 1 Demo.channel1 eq_refl). reflexivity.
Defined.

Lemma clear_window_frame_witness :
  (heap Demo.world1 !! 3 = Some (OComposite Demo.task1) /\
   heap Demo.world1 !! 4 = Some (OFrequencyStatus (Demo.fm_init 100 Demo.freq_cfg))) /\
  let w' := fst (clear_window 3 Demo.world1) in
  snd (clear_window 3 Demo.world1) = inr tt /\
  trace w' = trace Demo.world1 ++ [EvFreqClear 4] /\
  heap w' !! 5 = heap Demo.world1 !! 5 /\
  children (heap w') 3 = children (heap Demo.world1) 3 /\
  heap w' !! 0 = heap Demo.world1 !! 0.
Proof.
  split; [by vm_compute|].
  destruct (clear_window_frame Demo.world1 3 4 Demo.task1
              (Demo.fm_init 100 Demo.freq_cfg))
    as (Hout & Htrace & _ & Hother & Hchildren & _);
    try (vm_compute; reflexivity).
  split_and!; try assumption; apply Hother; discriminate.
Defined.

Lemma registration_failure_propagates_witness :
  (heap Demo.bare !! 1 = Some (OUpdater (Demo.mkRegistry false [])) /\
   Demo.reg_add (Demo.mkRegistry false [])
     (at_registration (heap Demo.bare) 100 "/imu" 1 Demo.freq_cfg) 2 =
     inl (Raised "registration rejected") /\
   heap Demo.world0 !! 2 = Some (OUpdater (Demo.mkRegistry false [])) /\
   heap Demo.world0 !! 1 = Some (OPublisher Demo.channel1) /\
   Demo.reg_add (Demo.mkRegistry false [])
     (at_registration (heap Demo.world0) 100 "/scan" 2 Demo.freq_cfg) 3 =
     inl (Raised "registration rejected")) /\
  let failed (hp : list Obj) (nm : string) (d : nat) : World * (Exception + nat) :=
    (mkWorld (at_registration hp 100 nm d Demo.freq_cfg) 100
       [EvAdd d (length hp) (at_registration hp 100 nm d Demo.freq_cfg)],
     inl (Raised "registration rejected")) in
  new_HeaderlessTopicDiagnostic "/imu" 1 Demo.freq_cfg Demo.bare =
    failed (heap Demo.bare) "/imu" 1 /\
  new_TopicDiagnostic "/imu" 1 Demo.freq_cfg Demo.stamp_cfg Demo.bare =
    failed (heap Demo.bare) "/imu" 1 /\
  new_DiagnosedPublisher 1 2 Demo.freq_cfg Demo.stamp_cfg Demo.world0 =
    failed (heap Demo.world0) "/scan" 2.
Proof.
  split; [by vm_compute|].
  destruct (@registration_failure_propagates Demo.carriers Demo.collaborators
              Demo.bare 1 Demo.freq_cfg Demo.stamp_cfg (Demo.mkRegistry false [])
              eq_refl)
    as (Hplain & _).
  destruct (@registration_failure_propagates Demo.carriers Demo.collaborators
              Demo.world0 2 Demo.freq_cfg Demo.stamp_cfg (Demo.mkRegistry false [])
              eq_refl)
    as (_ & Hpublisher).
  destruct (Hplain "/imu" (Raised "registration rejected") eq_refl)
    as (Hheaderless & Htopic).
  cbv zeta. split_and!.
  - exact Hheaderless.
  - exact Htopic.
  - exact (Hpublisher 1 Demo.channel1 (Raised "registration rejected")
             eq_refl eq_refl).
Defined.

Lemma registered_before_stamp_attached_witness :
  (heap Demo.bare !! 0 = Some (OUpdater (Demo.mkRegistry true [])) /\
   heap Demo.world0 !! 0 = Some (OUpdater (Demo.mkRegistry true [])) /\
   heap Demo.world0 !! 1 = Some (OPublisher Demo.channel1)) /\
  child_kinds (at_registration (heap Demo.bare) 100 "/imu" 0 Demo.freq_cfg) 2 =
    Some [Some KFrequencyStatus] /\
  heap Demo.bare1 !! 0 =
    Some (OUpdater (Demo.mkRegistry true [(2, [Some KFrequencyStatus])])) /\
  child_kinds (heap Demo.bare1) 2 =
    Some [Some KFrequencyStatus; Some KTimeStampStatus] /\
  heap Demo.world1 !! 0 =
    Some (OUpdater (Demo.mkRegistry true [(3, [Some KFrequencyStatus])])) /\
  child_kinds (heap Demo.world1) 3 =
    Some [Some KFrequencyStatus; Some KTimeStampStatus].
Proof.
  split; [by split_and!|].
  destruct (@registered_before_stamp_attached Demo.carriers Demo.collaborators
              Demo.bare "/imu" 0 Demo.freq_cfg Demo.stamp_cfg
              (Demo.mkRegistry true []) eq_refl)
    as (Hseen & _ & _ & (_ & _ & Htopic) & _).
  destruct (@registered_before_stamp_attached Demo.carriers Demo.collaborators
              Demo.world0 "/scan" 0 Demo.freq_cfg Demo.stamp_cfg
              (Demo.mkRegistry true []) eq_refl)
    as (_ & _ & _ & _ & Hpublisher).
  destruct (Htopic (Demo.mkRegistry true [(2, [Some KFrequencyStatus])]) eq_refl)
    as (_ & Hupdater & Hkinds).
  destruct (Hpublisher 1 Demo.channel1 eq_refl) as (_ & _ & Hlate).
  destruct (Hlate (Demo.mkRegistry true [(3, [Some KFrequencyStatus])]) eq_refl)
    as (_ & Hupdater' & Hkinds').
  split_and!; assumption.
Defined.

Lemma world1_wired : wired (heap Demo.world1) 3 4 5 1.
Proof. split; [|by vm_compute]. exists Demo.task1. by vm_compute. Qed.

Lemma publish_unusable_stamp_witness :
  (stamp_field Demo.misstamped = Some (PyObj [("sec", PyInt (-1)); ("nanosec", PyInt 0)]) /\
   Time_from_msg (PyObj [("sec", PyInt (-1)); ("nanosec", PyInt 0)]) =
     inl (Raised "ValueError")) /\
  publish 3 Demo.misstamped Demo.world1 = (Demo.world1, inl (Raised "ValueError")).
Proof.
  split; [by split|].
  apply (publish_unusable_stamp Demo.world1 3 Demo.misstamped
           (PyObj [("sec", PyInt (-1)); ("nanosec", PyInt 0)]) (Raised "ValueError")).
  - reflexivity.
  - left. reflexivity.
Defined.

Lemma publish_counts_rejected_message_witness :
  (heap Demo.world2 !! 2 = Some (OComposite Demo.task2) /\
   heap Demo.world2 !! 3 = Some (OFrequencyStatus (Demo.fm_init 100 Demo.freq_cfg)) /\
   heap Demo.world2 !! 4 = Some (OTimeStampStatus (Demo.tm_init 100 Demo.stamp_cfg)) /\
   heap Demo.world2 !! 1 = Some (OPublisher Demo.channel2) /\
   stamp_seconds Demo.stamped = inr (99500000000 * 1e-9)%float /\
   Publisher_publish Demo.channel2 Demo.stamped = inl (Raised "publisher closed")) /\
  let w' := fst (publish 2 Demo.stamped Demo.world2) in
  snd (publish 2 Demo.stamped Demo.world2) = inl (Raised "publisher closed") /\
  heap w' !! 3 =
    Some (OFrequencyStatus (Demo.fm_tick 100 (Demo.fm_init 100 Demo.freq_cfg))) /\
  heap w' !! 1 = Some (OPublisher Demo.channel2).
Proof.
  split; [by vm_compute|].
  destruct (@publish_counts_rejected_message Demo.carriers Demo.collaborators
              Demo.world2 2 3 4 1 Demo.task2
              (Demo.fm_init 100 Demo.freq_cfg) (Demo.tm_init 100 Demo.stamp_cfg)
              Demo.channel2 Demo.stamped (99500000000 * 1e-9)%float
              (Raised "publisher closed"))
    as (Hout & Hf & _ & Hp & _);
    try (vm_compute; reflexivity).
  split_and!; assumption.
Defined.

Lemma run_trace_exact_witness :
  wired (heap Demo.world1) 3 4 5 1 /\
  trace (run_ops 3 Demo.some_ops Demo.world1) =
    trace Demo.world1 ++ flat_map (calls 4 5 1) Demo.some_ops.
Proof.
  split; [exact world1_wired|].
  exact (run_trace_exact Demo.world1 3 4 5 1 Demo.some_ops world1_wired).
Defined.

Lemma run_forwards_in_order_witness :
  wired (heap Demo.world1) 3 4 5 1 /\
  sent (trace (run_ops 3 Demo.some_ops Demo.world1)) =
    [(1, Demo.stamped); (1, Demo.stamped)].
Proof.
  split; [exact world1_wired|].
  exact (run_forwards_in_order Demo.world1 3 4 5 1 Demo.some_ops world1_wired).
Defined.

Lemma bare1_monitored : monitored (heap Demo.bare1) 2 3 4.
Proof.
  split; [|by vm_compute].
  exists (mkComposite (Some "/imu topic status") (Some [3; 4]) (Some 0) (Some 3)
            (Some 4) None).
  by vm_compute.
Qed.

Lemma monitors_tick_together_witness :
  (monitored (heap Demo.bare1) 2 3 4 /\
   forallb stamped_op [OpTick 99.5%float; OpClearWindow; OpTick 100.25%float] = true) /\
  let w' := run_ops 2 [OpTick 99.5%float; OpClearWindow; OpTick 100.25%float]
              Demo.bare1 in
  freq_ticks 3 (trace w') + length (stamps 4 (trace Demo.bare1)) =
    freq_ticks 3 (trace Demo.bare1) + length (stamps 4 (trace w')).
Proof.
  split; [split; [exact bare1_monitored | reflexivity]|].
  exact (@monitors_tick_together Demo.carriers Demo.collaborators Demo.bare1 2 3 4
           [OpTick 99.5%float; OpClearWindow; OpTick 100.25%float]
           bare1_monitored eq_refl).
Defined.

Lemma HeaderlessTopicDiagnostic_tick_frame_witness :
  (heap Demo.world1 !! 3 = Some (OComposite Demo.task1) /\
   heap Demo.world1 !! 4 = Some (OFrequencyStatus (Demo.fm_init 100 Demo.freq_cfg))) /\
  let w' := fst (HeaderlessTopicDiagnostic_tick 3 Demo.world1) in
  trace w' = trace Demo.world1 ++ [EvFreqTick 4] /\
  heap w' !! 5 = heap Demo.world1 !! 5 /\
  stamps 5 (trace w') = stamps 5 (trace Demo.world1).
Proof.
  split; [by vm_compute|].
  destruct (HeaderlessTopicDiagnostic_tick_frame Demo.world1 3 4 Demo.task1
              (Demo.fm_init 100 Demo.freq_cfg))
    as (_ & Htrace & _ & Hother & Hstamps);
    try (vm_compute; reflexivity).
  split_and!; [exact Htrace | apply Hother; discriminate | apply Hstamps].
Defined.

Lemma construction_frame_witness :
  (heap Demo.bare !! 0 = Some (OUpdater (Demo.mkRegistry true [])) /\
   heap Demo.world0 !! 0 = Some (OUpdater (Demo.mkRegistry true [])) /\
   heap Demo.world0 !! 1 = Some (OPublisher Demo.channel1)) /\
  heap Demo.bare1 !! 1 = heap Demo.bare !! 1 /\
  heap Demo.world1 !! 1 = heap Demo.world0 !! 1 /\
  heap Demo.world1 !! 2 = heap Demo.world0 !! 2.
Proof.
  split; [by split_and!|].
  destruct (@construction_frame Demo.carriers Demo.collaborators
              Demo.bare "/imu" 0 Demo.freq_cfg Demo.stamp_cfg
              (Demo.mkRegistry true []) eq_refl)
    as (_ & Htopic & _).
  destruct (@construction_frame Demo.carriers Demo.collaborators
              Demo.world0 "/imu" 0 Demo.freq_cfg Demo.stamp_cfg
              (Demo.mkRegistry true []) eq_refl)
    as (_ & _ & Hpublisher).
  split_and!.
  - apply Htopic; simpl; lia.
  - apply (Hpublisher 1 Demo.channel1 eq_refl); simpl; lia.
  - apply (Hpublisher 1 Demo.channel1 eq_refl); simpl; lia.
Defined.

Lemma calls_are_local_witness :
  (heap Demo.world1 !! 3 = Some (OComposite Demo.task1) /\ 0 ∉ refs Demo.task1) /\
  heap (run_ops 3 Demo.some_ops Demo.world1) !! 0 = heap Demo.world1 !! 0.
Proof.
  assert (Hout : 0 ∉ refs Demo.task1).
  { unfold refs. simpl. rewrite !not_elem_of_cons.
    split_and!; [lia | lia | lia | apply not_elem_of_nil]. }
  split; [split; [reflexivity | exact Hout]|].
  exact (calls_are_local Demo.world1 3 Demo.task1 Demo.some_ops 0 eq_refl Hout).
Defined.

Lemma instances_independent_witness :
  let r1 := new_TopicDiagnostic "/imu" 0 Demo.freq_cfg Demo.stamp_cfg Demo.world0 in
  let r2 := new_TopicDiagnostic "/gps" 0 Demo.freq_cfg Demo.stamp_cfg (fst r1) in
  (heap Demo.world0 !! 0 = Some (OUpdater (Demo.mkRegistry true [])) /\
   snd r1 = inr 3 /\ snd r2 = inr 6) /\
  owns (heap (fst r2)) 3 4 5 /\
  owns (heap (fst r2)) 6 7 8 /\
  heap (run_ops 6 Demo.some_ops (fst r2)) !! 4 = heap (fst r2) !! 4 /\
  heap (run_ops 3 Demo.some_ops (fst r2)) !! 7 = heap (fst r2) !! 7.
Proof.
  cbv zeta. split; [by vm_compute|].
  destruct (@instances_independent Demo.carriers Demo.collaborators
              Demo.world0 "/imu" "/gps" 0 Demo.freq_cfg Demo.freq_cfg
              Demo.stamp_cfg Demo.stamp_cfg (Demo.mkRegistry true [])
              Demo.some_ops eq_refl eq_refl eq_refl)
    as (Ha & Hb & Hab & Hba).
  split; [exact Ha|]. split; [exact Hb|]. split.
  - apply Hab. apply elem_of_cons. right. apply elem_of_cons. by left.
  - apply Hba. apply elem_of_cons. right. apply elem_of_cons. by left.
Defined.

Lemma DiagnosedPublisher_runs_on_its_publisher_witness :
  (heap Demo.world0 !! 0 = Some (OUpdater (Demo.mkRegistry true [])) /\
   heap Demo.world0 !! 1 = Some (OPublisher Demo.channel1) /\
   snd (new_DiagnosedPublisher 1 0 Demo.freq_cfg Demo.stamp_cfg Demo.world0) = inr 3) /\
  wired (heap Demo.world1) 3 4 5 1 /\
  trace (run_ops 3 Demo.some_ops Demo.world1) =
    EvAdd 0 3 (at_registration (heap Demo.world0) 100 "/scan" 0 Demo.freq_cfg)
    :: flat_map (calls 4 5 1) Demo.some_ops /\
  sent (trace (run_ops 3 Demo.some_ops Demo.world1)) =
    [(1, Demo.stamped); (1, Demo.stamped)].
Proof.
  split; [by vm_compute|].
  exact (@DiagnosedPublisher_runs_on_its_publisher Demo.carriers Demo.collaborators
           Demo.world0 1 0 Demo.freq_cfg Demo.stamp_cfg (Demo.mkRegistry true [])
           Demo.channel1 Demo.some_ops eq_refl eq_refl eq_refl).
Defined.

Lemma DiagnosedPublisher_needs_a_publisher_witness :
  kind_of (heap Demo.world0 !! 0) <> Some KPublisher /\
  new_DiagnosedPublisher 0 0 Demo.freq_cfg Demo.stamp_cfg Demo.world0 =
    (mkWorld (heap Demo.world0 ++ [OComposite blank]) 100 [],
     inl (AttributeError "topic_name")).
Proof.
  assert (Hk : kind_of (heap Demo.world0 !! 0) <> Some KPublisher) by discriminate.
  split; [exact Hk|].
  exact (@DiagnosedPublisher_needs_a_publisher Demo.carriers Demo.collaborators
           Demo.world0 0 0 Demo.freq_cfg Demo.stamp_cfg Hk).
Defined.

Lemma construction_needs_an_updater_witness :
  kind_of (heap Demo.world0 !! 1) <> Some KUpdater /\
  new_TopicDiagnostic "/imu" 1 Demo.freq_cfg Demo.stamp_cfg Demo.world0 =
    (mkWorld (at_registration (heap Demo.world0) 100 "/imu" 1 Demo.freq_cfg) 100 [],
     inl (AttributeError "add")).
Proof.
  assert (Hk : kind_of (heap Demo.world0 !! 1) <> Some KUpdater) by discriminate.
  split; [exact Hk|].
  exact (proj2 (@construction_needs_an_updater Demo.carriers Demo.collaborators
                  Demo.world0 "/imu" 1 Demo.freq_cfg Demo.stamp_cfg Hk)).
Defined.
